(** * MlOps-Task-Lab8, AutoGen planner/executor example

    A shallow embedding of [AutoGen/src/tools.py], [AutoGen/src/config.py]
    and the wiring of [AutoGen/src/agent.py], together with the part of the
    Python runtime these three files call into ([pathlib], [os]).

    Conventions.
    - A Python [str] is a [string]; the text written with
      [encoding="utf-8"] is taken in its encoded form, so the file content
      is the string itself.
    - Paths follow the POSIX flavour of [pathlib], as CPython 3.11 has
      it. The file system is a Linux one without symbolic links: a
      component holds at most 255 bytes, a path string fewer than 4096,
      and Python passes no path with a null byte to the system.
    - A Python call that may raise runs in the monad [M]: it takes the
      world (environment variables, file system, system-call trace) and
      returns the new world with either a value or the exception raised.
      The world of a call that raises keeps the effects made before the
      exception. *)

From Stdlib Require Import Ascii.
From stdpp Require Import base option list strings gmap pretty.

(** ** Characters and strings *)

Definition LF : ascii := "010"%char.
Definition NUL : ascii := "000"%char.
Definition slash : ascii := "/"%char.

(** The one-character string "\n". *)
Definition nl : string := String LF "".

(** [sep.join(l)]. *)
Definition join (sep : string) (l : list string) : string := String.concat sep l.

(** [s.split(sep)] for a one-character separator: the fields between
    separators; the empty string has the single empty field. *)
Fixpoint split (sep : ascii) (s : string) : list string :=
  match s with
  | "" => [""]
  | String c s' =>
      if decide (c = sep) then "" :: split sep s'
      else match split sep s' with
           | [] => [String c ""]
           | f :: fs => String c f :: fs
           end
  end.

(** The lines of a text: every line feed ends a line, and a last line
    that no line feed ends counts when it is not empty. *)
Fixpoint lines (s : string) : list string :=
  match s with
  | "" => []
  | String c s' =>
      if decide (c = LF) then "" :: lines s'
      else match lines s' with
           | [] => [String c ""]
           | l :: ls => String c l :: ls
           end
  end.

(** [c in s]. *)
Fixpoint contains (c : ascii) (s : string) : bool :=
  match s with
  | "" => false
  | String a s' => bool_decide (a = c) || contains c s'
  end.

(** [s.startswith(pre)]. *)
Fixpoint startswith (pre s : string) : bool :=
  match pre, s with
  | "", _ => true
  | String a pre', String b s' => bool_decide (a = b) && startswith pre' s'
  | String _ _, "" => false
  end.

(** [enumerate(l)], counting from [n]. *)
Fixpoint enumerate_from {A : Type} (n : nat) (l : list A) : list (nat * A) :=
  match l with
  | [] => []
  | x :: l' => (n, x) :: enumerate_from (S n) l'
  end.

Definition enumerate {A : Type} (l : list A) : list (nat * A) := enumerate_from 0 l.

(** ** Exceptions and the monad of Python calls *)

Module Py.

(** The exceptions the modelled calls raise: [OSError] (an error of
    the operating system that has no subclass of its own; in this model
    ENAMETOOLONG, and a write to a descriptor that is no open file), five
    of its subclasses, [IndexError] and [ValueError]. *)
Inductive exn : Set :=
| OSError
| FileNotFoundError
| FileExistsError
| NotADirectoryError
| IsADirectoryError
| PermissionError
| IndexError
| ValueError.

Definition is_OSError (e : exn) : bool :=
  match e with
  | IndexError | ValueError => false
  | _ => true
  end.

Inductive result (A : Type) : Type :=
| Ok (a : A)
| Raise (e : exn).

Global Arguments Ok {A} a.
Global Arguments Raise {A} e.

Global Instance exn_eq_dec : EqDecision exn.
Proof. solve_decision. Defined.

End Py.
Export Py.

(** ** Pure paths ([pathlib.PurePosixPath]) *)

(** A parsed path: the anchor ("", "/" or "//") and the components after
    it, without empty and "." components. *)
Record Path : Set := mkPath { anchor : string; segments : list string }.

Global Instance Path_eq_dec : EqDecision Path.
Proof. solve_decision. Defined.

Module PurePath.

(** [s[i:i+1]]. *)
Definition char_at (i : nat) (s : string) : string := String.substring i 1 s.

(** The root of [posixpath.splitroot]: no leading slash gives no root,
    exactly two leading slashes are kept, one or three and more give
    one. *)
Definition splitroot (s : string) : string :=
  if negb (bool_decide (char_at 0 s = "/")) then ""
  else if negb (bool_decide (char_at 1 s = "/")) || bool_decide (char_at 2 s = "/")
  then "/"
  else "//".

Definition keep_segment (x : string) : bool :=
  negb (bool_decide (x = "")) && negb (bool_decide (x = ".")).

(** [PurePosixPath(s)]. *)
Definition parse (s : string) : Path :=
  mkPath (splitroot s) (filter (λ x, keep_segment x = true) (split slash s)).

(** [str(p)]. *)
Definition str (p : Path) : string :=
  match anchor p, segments p with
  | "", [] => "."
  | a, segs => a +:+ join "/" segs
  end.

(** [p / key]: an anchored right operand replaces the left one. *)
Definition joinpath (p : Path) (key : string) : Path :=
  let q := parse key in
  match anchor q with
  | "" => mkPath (anchor p) (segments p ++ segments q)
  | _ => q
  end.

(** [p.parent]: the path without its last component; a path without
    components is its own parent. *)
Definition parent (p : Path) : Path :=
  mkPath (anchor p) (removelast (segments p)).

(** [p.parents[i]]: [i + 1] components dropped, [IndexError] when the
    path has no more than [i] components. *)
Definition parents (p : Path) (i : nat) : result Path :=
  if decide (i < length (segments p))
  then Ok (mkPath (anchor p) (take (length (segments p) - S i) (segments p)))
  else Raise IndexError.


(** [q.is_relative_to(p)]: [q] is [p] or lies below it. *)
Definition is_relative_to (q p : Path) : bool :=
  bool_decide (anchor q = anchor p) &&
  bool_decide (take (length (segments p)) (segments q) = segments p).

End PurePath.

(** ** The world: environment variables and a file system *)

Inductive node : Set :=
| Dir
| File (data : string).

Global Instance node_eq_dec : EqDecision node.
Proof. solve_decision. Defined.

Inductive syscall : Set :=
| SysMkdir (p : Path)
| SysStat (p : Path)
| SysOpenW (p : Path)
| SysWrite (fd : list string) (data : string).

(** A node is named by its components from the root directory; the root
    is the empty list. [readonly] holds the directories no entry can be
    added to and the files that cannot be opened for writing. [trace] is
    the list of system calls made, the latest first; a call that Python
    refuses before it reaches the system leaves no entry. *)
Record World : Type := mkWorld {
  environ : gmap string string;
  cwd : list string;
  nodes : gmap (list string) node;
  readonly : gset (list string);
  trace : list syscall
}.

Definition M (A : Type) : Type := World → World * result A.

Definition ret {A : Type} (a : A) : M A := λ w, (w, Ok a).

Definition raise {A : Type} (e : exn) : M A := λ w, (w, Raise e).

Definition bind {A B : Type} (m : M A) (k : A → M B) : M B :=
  λ w, match m w with
       | (w', Ok a) => k a w'
       | (w', Raise e) => (w', Raise e)
       end.

(** [try: m  except Exception as e: h e]. *)
Definition try_except {A : Type} (m : M A) (h : exn → M A) : M A :=
  λ w, match m w with
       | (w', Ok a) => (w', Ok a)
       | (w', Raise e) => h e w'
       end.

(** A value or exception computed without effect. *)
Definition lift {A : Type} (r : result A) : M A := λ w, (w, r).

Notation "'do' x <- m ; k" := (bind m (λ x, k))
  (at level 10, x name, m at level 100, k at level 200).
Notation "m ;; k" := (bind m (λ _, k))
  (at level 100, k at level 200, right associativity).

Definition emit (c : syscall) (w : World) : World :=
  mkWorld (environ w) (cwd w) (nodes w) (readonly w) (c :: trace w).

Definition set_node (k : list string) (n : node) (w : World) : World :=
  mkWorld (environ w) (cwd w) (<[k := n]> (nodes w)) (readonly w) (trace w).

Module OS.
Import PurePath.

(** The longest component a directory holds and the size of the buffer
    a path string is copied to, in bytes (Linux). *)
Definition NAME_MAX : nat := 255.
Definition PATH_MAX : nat := 4096.

(** The conversion of a path to the C string a system call takes
    refuses an embedded null byte ([ValueError]); no call is made. *)
Definition embedded_null (p : Path) : bool := contains NUL (str p).

(** The root directory always exists. *)
Definition node_at (w : World) (k : list string) : option node :=
  match k with
  | [] => Some Dir
  | _ => nodes w !! k
  end.

(** Path resolution from directory [cur]: every directory stepped
    through must exist, a component longer than [NAME_MAX] is looked up
    in no directory (ENAMETOOLONG), ".." steps to the containing
    directory (the root contains itself). The node named at the end is
    not looked up. *)
Fixpoint namei (w : World) (cur : list string) (segs : list string)
  : result (list string) :=
  match segs with
  | [] => Ok cur
  | s :: rest =>
      match node_at w cur with
      | None => Raise FileNotFoundError
      | Some (File _) => Raise NotADirectoryError
      | Some Dir =>
          if NAME_MAX <? String.length s then Raise OSError
          else namei w (if decide (s = "..") then removelast cur else cur ++ [s]) rest
      end
  end.

Definition resolve (w : World) (p : Path) : result (list string) :=
  namei w (match anchor p with "" => cwd w | _ => [] end) (segments p).

(** The name a system call on [p] works on: a path string of
    [PATH_MAX] bytes or more, its final null byte counted, is refused
    before any component is looked up (ENAMETOOLONG). *)
Definition lookup (w : World) (p : Path) : result (list string) :=
  if PATH_MAX <=? String.length (str p) then Raise OSError else resolve w p.

(** [os.mkdir(p)]. *)
Definition mkdir (p : Path) : M unit := λ w0,
  if embedded_null p then (w0, Raise ValueError) else
  let w := emit (SysMkdir p) w0 in
  match lookup w p with
  | Raise e => (w, Raise e)
  | Ok k =>
      match node_at w k with
      | Some _ => (w, Raise FileExistsError)
      | None =>
          if decide (removelast k ∈ readonly w) then (w, Raise PermissionError)
          else (set_node k Dir w, Ok ())
      end
  end.

(** [os.stat(p)], read for the kind of node found. *)
Definition stat (p : Path) : M node := λ w0,
  if embedded_null p then (w0, Raise ValueError) else
  let w := emit (SysStat p) w0 in
  match lookup w p with
  | Raise e => (w, Raise e)
  | Ok k =>
      match node_at w k with
      | Some n => (w, Ok n)
      | None => (w, Raise FileNotFoundError)
      end
  end.

(** [S_ISDIR] of [os.stat(p)] in world [w]; [None] when the call
    raises. *)
Definition stat_isdir (w : World) (p : Path) : option bool :=
  match (stat p w).2 with
  | Ok Dir => Some true
  | Ok (File _) => Some false
  | Raise _ => None
  end.

(** [open(p, "w")]: the file is created or truncated; the descriptor
    is the name of the node. *)
Definition open_w (p : Path) : M (list string) := λ w0,
  if embedded_null p then (w0, Raise ValueError) else
  let w := emit (SysOpenW p) w0 in
  match lookup w p with
  | Raise e => (w, Raise e)
  | Ok k =>
      match node_at w k with
      | Some Dir => (w, Raise IsADirectoryError)
      | Some (File _) =>
          if decide (k ∈ readonly w) then (w, Raise PermissionError)
          else (set_node k (File "") w, Ok k)
      | None =>
          if decide (removelast k ∈ readonly w) then (w, Raise PermissionError)
          else (set_node k (File "") w, Ok k)
      end
  end.

(** [f.write(data)] on a descriptor opened for writing: the data goes
    after what the file holds. *)
Definition write (fd : list string) (data : string) : M nat := λ w0,
  let w := emit (SysWrite fd data) w0 in
  match node_at w fd with
  | Some (File old) => (set_node fd (File (old +:+ data)) w, Ok (String.length data))
  | _ => (w, Raise OSError)
  end.

End OS.

(** ** Concrete paths ([pathlib.Path]) *)

Module Pathlib.
Import PurePath.

(** [p.is_dir()] (CPython 3.11): false when [os.stat] fails with
    ENOENT or ENOTDIR and when the path cannot be converted
    ([ValueError]); another [OSError] of [os.stat] is raised again. *)
Definition is_dir (p : Path) : M bool :=
  try_except
    (do n <- OS.stat p;
     ret match n with Dir => true | File _ => false end)
    (λ e,
      match e with
      | FileNotFoundError | NotADirectoryError | ValueError => ret false
      | _ => raise e
      end).

(** The second [except] clause of [Path.mkdir],
    [if not exist_ok or not self.is_dir(): raise]: an [OSError] of
    [os.mkdir] is dropped when [exist_ok] is set and the path is a
    directory, and raised again otherwise; without [exist_ok] the path
    is not examined. *)
Definition except_OSError (exist_ok : bool) (p : Path) (e : exn) : M unit :=
  if is_OSError e then
    if negb exist_ok then raise e
    else
      do d <- is_dir p;
      if negb d then raise e else ret ()
  else raise e.

(** [p.mkdir(parents=False, exist_ok=exist_ok)]: the first [except]
    clause raises [FileNotFoundError] again, as [parents] is not set. *)
Definition mkdir_leaf (exist_ok : bool) (p : Path) : M unit :=
  try_except (OS.mkdir p) (λ e,
    match e with
    | FileNotFoundError => raise e
    | _ => except_OSError exist_ok p e
    end).

(** [p.mkdir(parents=True, exist_ok=exist_ok)] for the path with anchor
    [a] and components [rev rsegs]: on [FileNotFoundError] the parent
    is made first (with [exist_ok=True]) and the path itself is then
    made without [parents]; a path that is its own parent raises. *)
Fixpoint mkdir_parents (exist_ok : bool) (a : string) (rsegs : list string)
  : M unit :=
  let p := mkPath a (rev rsegs) in
  try_except (OS.mkdir p) (λ e,
    match e with
    | FileNotFoundError =>
        match rsegs with
        | [] => raise e
        | _ :: up => mkdir_parents true a up ;; mkdir_leaf exist_ok p
        end
    | _ => except_OSError exist_ok p e
    end).

(** [p.mkdir(parents=parents, exist_ok=exist_ok)]. *)
Definition mkdir (parents exist_ok : bool) (p : Path) : M unit :=
  if parents then mkdir_parents exist_ok (anchor p) (rev (segments p))
  else mkdir_leaf exist_ok p.

(** [p.write_text(data, encoding="utf-8")]: open for writing, write,
    close. *)
Definition write_text (p : Path) (data : string) : M nat :=
  do fd <- OS.open_w p;
  OS.write fd data.

(** What reading the file at [p] gives in world [w], when it is a
    regular file. *)
Definition file_content (w : World) (p : Path) : option string :=
  match OS.resolve w p with
  | Raise _ => None
  | Ok k =>
      match OS.node_at w k with
      | Some (File d) => Some d
      | _ => None
      end
  end.

End Pathlib.

(** ** [AutoGen/src/tools.py] *)

Module Tools.
Import PurePath.

(** [f"{i+1}. {step}\n"]. *)
Definition format_line (i : nat) (step : string) : string :=
  pretty (i + 1) +:+ ". " +:+ step +:+ nl.

(** The text handed to [write_text]: the joined list comprehension. *)
Definition plan_text (steps : list string) : string :=
  join "" (map (λ '(i, step), format_line i step) (enumerate steps)).

Definition default_filename : string := "autogen_plan.txt".

Section WithModuleFile.

(** The value of [Path(__file__).resolve()], the absolute location of
    [tools.py]. The calls [resolve()] makes to find it ([lstat] on the
    ancestors of the module file) change nothing in the file system;
    the world a call is given is the one they leave, and the trace
    records the calls made from there on. *)
Variable this_file : Path.

(** [Path(__file__).resolve().parents[2] / "logs"]. *)
Definition logs_dir : result Path :=
  match parents this_file 2 with
  | Ok root => Ok (joinpath root "logs")
  | Raise e => Raise e
  end.

Definition save_plan_to_file (steps : list string) (filename : string) : M string :=
  do root <- lift (parents this_file 2);
  let logs_dir := joinpath root "logs" in
  Pathlib.mkdir true true logs_dir ;;
  let path := joinpath logs_dir filename in
  let lines := map (λ '(i, step), format_line i step) (enumerate steps) in
  Pathlib.write_text path (join "" lines) ;;
  ret (str path).

End WithModuleFile.

End Tools.

(** ** [AutoGen/src/config.py] *)

Module Config.

(** [os.getenv(key, default)]. *)
Definition getenv (w : World) (key default : string) : string :=
  match environ w !! key with
  | Some v => v
  | None => default
  end.

(** The dictionary returned has the one key "config_list", bound to a
    list of string dictionaries. *)
Definition get_llm_config (w : World) : gmap string (list (gmap string string)) :=
  let base_url := getenv w "OLLAMA_BASE_URL" "http://localhost:11434/v1" in
  let config_list : list (gmap string string) :=
    [ <["model" := "mistral:latest"]>
      (<["api_key" := "NA"]>
      (<["base_url" := base_url]> ∅)) ] in
  {[ "config_list" := config_list ]}.

End Config.

(** ** [AutoGen/src/agent.py] *)

Module Agent.

(** The three participants of the group chat, by the names the source
    gives them. *)
Inductive Role : Set := user | planner | executor.

Global Instance Role_eq_dec : EqDecision Role.
Proof. solve_decision. Defined.

Definition role_name (r : Role) : string :=
  match r with
  | user => "user"
  | planner => "planner"
  | executor => "executor"
  end.

Record Message : Set := mkMessage { sender : Role; content : string }.

(** What the source passes to the constructors of [UserProxyAgent] and
    [AssistantAgent] ([None] for an argument it leaves out), and the
    tools registered for execution. *)
Record ConversableAgent : Type := mkAgent {
  role : Role;
  llm_config : option (gmap string (list (gmap string string)));
  system_message : option string;
  code_execution_config : option bool;
  human_input_mode : option string;
  function_map : list (string * (list string → M string))
}.

Record GroupChat : Type := mkGroupChat {
  agents : list ConversableAgent;
  messages : list Message;
  max_round : nat
}.

Record GroupChatManager : Type := mkManager {
  name : string;
  groupchat : GroupChat;
  manager_llm_config : gmap string (list (gmap string string));
  manager_system_message : string
}.

Definition planner_system_message : string :=
  "You are an MLOps planning assistant. Given a high-level goal, " +:+
  "produce a numbered list of 4-8 concrete steps to achieve it. " +:+
  "Focus on practical, implementation-oriented actions.".

Definition executor_system_message : string :=
  "You are an MLOps execution assistant. For each step in the " +:+
  "plan, describe briefly how to carry it out in practice, then " +:+
  "call `save_plan_tool` once you have the final plan ready.".

Definition supervisor_system_message : string :=
  "You are a supervisor that coordinates a planner and an executor " +:+
  "agent. Ensure the planner proposes a reasonable plan first, " +:+
  "then have the executor elaborate on each step and call tools " +:+
  "when needed. Stop the conversation when a clear plan and " +:+
  "execution notes have been produced.".

Section WithModuleFile.

Variable this_file : Path.

(** The tool registered on the user proxy. *)
Definition save_plan_tool (steps : list string) : M string :=
  Tools.save_plan_to_file this_file steps Tools.default_filename.

Definition create_planner_executor_agents (w : World)
  : ConversableAgent * GroupChatManager :=
  let llm_config := Config.get_llm_config w in
  let user_proxy :=
    mkAgent user None None (Some false) (Some "NEVER")
      [("save_plan_tool", save_plan_tool)] in
  let planner :=
    mkAgent planner (Some llm_config) (Some planner_system_message) None None [] in
  let executor :=
    mkAgent executor (Some llm_config) (Some executor_system_message) None None [] in
  let groupchat := mkGroupChat [user_proxy; planner; executor] [] 10 in
  let manager := mkManager "supervisor" groupchat llm_config supervisor_system_message in
  (user_proxy, manager).

End WithModuleFile.

(** *** The conversation *)

(** Modelled from the spec: the engine that runs the group chat (the
    [initiate_chat] and [GroupChatManager] of the autogen library) is
    missing from the sources of the repository, which only call it.
    What follows is the Conversation Session of section 3 and the
    transitions of section 4.3: an append-only message log, a round
    counter and a termination flag; a turn appends one message and
    counts one round; the session terminates when the supervisor judges
    the exchange complete or the round counter reaches the configured
    maximum; once the flag is set no turn is appended. The informal
    states of section 4.3 are read off the session: it awaits the plan
    while the log holds no planner message, awaits the execution
    afterwards, and is terminated when the flag is set.

    The source gives the supervisor its policy as the text of
    [supervisor_system_message] and no rule of selection or of
    completion (the group chat is built from the agents, an empty
    message list and [max_round] alone), so who speaks next, what a
    role says and whether the exchange is judged complete are
    parameters here. *)
Record Session : Set := mkSession {
  log : list Message;
  round : nat;
  terminated : bool
}.

Section Conversation.

Variable chat : GroupChat.
Variable next_speaker : list Message → Role.
Variable reply : Role → list Message → string.
Variable judged_complete : list Message → bool.

(** Modelled from the spec: the session created at conversation start,
    with the messages the group chat was built with and no round
    counted; it is terminated at once when no round is allowed. *)
Definition new_session : Session :=
  mkSession (messages chat) 0 (bool_decide (max_round chat ≤ 0)).

(** Modelled from the spec: one turn. Nothing is appended once the flag
    is set; otherwise the message is appended, the round counted, and
    the flag set when the exchange is judged complete or the counter
    has reached the maximum. *)
Definition append_turn (m : Message) (s : Session) : Session :=
  if terminated s then s
  else
    let log' := log s ++ [m] in
    let round' := S (round s) in
    mkSession log' round'
      (judged_complete log' || bool_decide (max_round chat ≤ round')).

(** Modelled from the spec: the supervisor decides which role speaks
    next, and that role produces one message. *)
Definition take_turn (s : Session) : Session :=
  let r := next_speaker (log s) in
  append_turn (mkMessage r (reply r (log s))) s.

(** Modelled from the spec: the session after the goal is submitted by
    the user proxy and [turns] further turns were scheduled. *)
Definition initiate_chat (goal : string) (turns : nat) : Session :=
  Nat.iter turns take_turn (append_turn (mkMessage user goal) new_session).

End Conversation.

Section Main.

Variable this_file : Path.
Variable next_speaker : list Message → Role.
Variable reply : Role → list Message → string.
Variable judged_complete : list Message → bool.

(** [main], with the goal read from standard input as an argument: the
    agents are created and the user proxy initiates the chat with the
    manager. The result is the session after [turns] turns. *)
Definition main (w : World) (user_goal : string) (turns : nat) : Session :=
  let '(user_proxy, manager) := create_planner_executor_agents this_file w in
  initiate_chat (groupchat manager) next_speaker reply judged_complete
    user_goal turns.

End Main.

(** No executor message comes before the first planner message;
    [seen] tells whether a planner message came already. *)
Fixpoint planner_first (seen : bool) (l : list Message) : bool :=
  match l with
  | [] => true
  | m :: l' =>
      match sender m with
      | planner => planner_first true l'
      | executor => seen && planner_first seen l'
      | user => planner_first seen l'
      end
  end.

(** The log holds a planner message. *)
Definition planner_spoke (l : list Message) : bool :=
  existsb (λ m, match sender m with planner => true | _ => false end) l.

End Agent.

(** * Vocabulary of the statements *)

Import PurePath.
Import Agent.

(** ** Plans *)

(** A line of the plan without its line feed. *)
Definition numbered (i : nat) (step : string) : string :=
  pretty (i + 1) +:+ ". " +:+ step.

(** The text whose lines are [ls]: every line is followed by a line
    feed. *)
Definition unlines (ls : list string) : string :=
  join "" (map (λ l, l +:+ nl) ls).

(** No step holds a line feed. *)
Definition single_line (steps : list string) : bool :=
  forallb (λ step, negb (contains LF step)) steps.

(** The [path] of [save_plan_to_file]. *)
Definition plan_path (this_file : Path) (filename : string) : result Path :=
  match Tools.logs_dir this_file with
  | Ok d => Ok (joinpath d filename)
  | Raise e => Raise e
  end.

(** ** Paths *)

(** A component as [parse] produces them: not empty, not ".", without
    a slash. *)
Definition segment_ok (x : string) : bool :=
  keep_segment x && negb (contains slash x).

(** A path as [parse] produces them. *)
Definition well_formed (p : Path) : bool :=
  (bool_decide (anchor p = "") || bool_decide (anchor p = "/")
   || bool_decide (anchor p = "//"))
  && forallb segment_ok (segments p).

(** ** Worlds *)

(** Every directory of [w] is a directory of [w'], and the working
    directory is the same. *)
Definition dirs_kept (w w' : World) : Prop :=
  cwd w' = cwd w ∧ ∀ k, OS.node_at w k = Some Dir → OS.node_at w' k = Some Dir.

(** The number of calls of a kind in a trace. *)
Fixpoint count_calls (f : syscall → bool) (t : list syscall) : nat :=
  match t with
  | [] => 0
  | c :: t' => (if f c then 1 else 0) + count_calls f t'
  end.

Definition is_open_w (c : syscall) : bool :=
  match c with SysOpenW _ => true | _ => false end.

Definition is_write (c : syscall) : bool :=
  match c with SysWrite _ _ => true | _ => false end.

(** What a call that writes no file leaves in place. *)
Record quiet (w w' : World) : Prop := mkQuiet {
  quiet_dirs : dirs_kept w w';
  quiet_environ : environ w' = environ w;
  quiet_readonly : readonly w' = readonly w;
  quiet_opens : count_calls is_open_w (trace w') = count_calls is_open_w (trace w);
  quiet_writes : count_calls is_write (trace w') = count_calls is_write (trace w)
}.

(** The file at [p] can be created or opened for writing. *)
Definition writable (w : World) (p : Path) : bool :=
  negb (OS.embedded_null p) &&
  match OS.lookup w p with
  | Raise _ => false
  | Ok k =>
      match OS.node_at w k with
      | Some Dir => false
      | Some (File _) => negb (bool_decide (k ∈ readonly w))
      | None => negb (bool_decide (removelast k ∈ readonly w))
      end
  end.

(** A path string a system call takes: it holds no null byte and is
    shorter than [PATH_MAX]. *)
Definition accepted (p : Path) : bool :=
  negb (OS.embedded_null p) && (String.length (str p) <? OS.PATH_MAX).



Definition with_readonly (ro : gset (list string)) (w : World) : World :=
  mkWorld (environ w) (cwd w) (nodes w) ro (trace w).

Definition with_environ (env : gmap string string) (w : World) : World :=
  mkWorld env (cwd w) (nodes w) (readonly w) (trace w).

(** ** Example worlds *)

Definition example_file : Path := parse "/srv/lab8/AutoGen/src/tools.py".

(** A world where the repository is checked out under /srv/lab8, without
    a logs directory yet. *)
Definition example_world : World :=
  mkWorld ∅ []
    (list_to_map
       [ (["srv"], Dir); (["srv"; "lab8"], Dir); (["srv"; "lab8"; "AutoGen"], Dir);
         (["srv"; "lab8"; "AutoGen"; "src"], Dir);
         (["srv"; "lab8"; "AutoGen"; "src"; "tools.py"], File "");
         (["tmp"], Dir) ])
    ∅ [].

(** The example world after a first save of another plan, with the
    environment variable of [config.py] set. *)
Definition example_world_used : World :=
  with_environ {[ "OLLAMA_BASE_URL" := "http://example:9999/v1" ]}
    (Tools.save_plan_to_file example_file ["Old plan"] "autogen_plan.txt" example_world).1.

(** The logs directory exists and nothing can be added to it. *)
Definition example_world_locked : World :=
  with_readonly {[ ["srv"; "lab8"; "logs"] ]}
    (Pathlib.mkdir true true (parse "/srv/lab8/logs") example_world).1.

(** Nothing can be added to the repository root, which has no logs
    directory. *)
Definition example_world_sealed : World :=
  with_readonly {[ ["srv"; "lab8"] ]} example_world.

(** ** Conversations *)

(** The counter is within the maximum, strictly so while the session
    is open, and counts the messages appended. *)
Definition bounded (chat : GroupChat) (s : Session) : Prop :=
  round s ≤ max_round chat ∧
  (terminated s = false → round s < max_round chat) ∧
  length (log s) = length (messages chat) + round s.

(** A supervisor that follows its instruction: the planner until it has
    spoken, the executor afterwards. *)
Definition planner_then_executor (l : list Message) : Role :=
  if planner_spoke l then executor else planner.

(** ** Further vocabulary *)

(** The text of [steps] when the first of them is numbered [n + 1]. *)
Definition plan_text_from (n : nat) (steps : list string) : string :=
  join "" (map (λ '(i, step), Tools.format_line i step) (enumerate_from n steps)).





(** Every node of [w] is the same node in [w']. *)
Definition nodes_kept (w w' : World) : Prop :=
  ∀ k n, OS.node_at w k = Some n → OS.node_at w' k = Some n.



(** The name made of [n] letters "a". *)
Fixpoint letters (n : nat) : string :=
  match n with
  | 0 => ""
  | S n' => String "a" (letters n')
  end.

(** A relative name of twenty components of 250 bytes, 5019 bytes in
    all. *)
Definition deep_name : string := join "/" (replicate 20 (letters 250)).

(** The name "a\0b". *)
Definition null_name : string := String "a" (String NUL "b").

(** * Properties *)

(** ** Strings and lines *)

Lemma app_empty_l (s : string) : "" +:+ s = s.
Proof. reflexivity. Qed.

Lemma app_cons (c : ascii) (s t : string) : String c s +:+ t = String c (s +:+ t).
Proof. reflexivity. Qed.

Lemma app_empty_r (s : string) : s +:+ "" = s.
Proof. induction s as [|c s IH]; [done|]. by rewrite app_cons, IH. Qed.

Lemma app_assoc_str (s t u : string) : (s +:+ t) +:+ u = s +:+ t +:+ u.
Proof. induction s as [|c s IH]; [done|]. by rewrite !app_cons, IH. Qed.

Lemma contains_app (c : ascii) (s t : string) :
  contains c (s +:+ t) = contains c s || contains c t.
Proof.
  induction s as [|a s IH]; [done|].
  rewrite app_cons. simpl. rewrite IH. by destruct (bool_decide (a = c)).
Qed.

Lemma join_empty_cons (x : string) (l : list string) :
  join "" (x :: l) = x +:+ join "" l.
Proof.
  unfold join. destruct l as [|y l]; simpl.
  - by rewrite app_empty_r.
  - done.
Qed.

(** A text that starts with a line and its line feed. *)
Lemma lines_app_nl (l rest : string) :
  contains LF l = false → lines (l +:+ nl +:+ rest) = l :: lines rest.
Proof.
  induction l as [|c l IH]; intros Hl.
  - rewrite app_empty_l. unfold nl. rewrite app_cons, app_empty_l.
    cbn [lines]. by rewrite decide_True.
  - simpl in Hl. apply orb_false_iff in Hl as [Hc Hl].
    apply bool_decide_eq_false in Hc.
    rewrite app_cons. cbn [lines]. rewrite decide_False by done.
    by rewrite IH.
Qed.

(** The digits of a number hold no line feed. *)
Lemma contains_LF_pretty_N_go (x : N) (s : string) :
  contains LF s = false → contains LF (pretty_N_go x s) = false.
Proof.
  revert s. induction (N.lt_wf_0 x) as [x _ IH]; intros s Hs.
  destruct (decide (0 < x)%N) as [Hx|Hx].
  - rewrite pretty_N_go_step by done. apply IH.
    + by apply N.div_lt.
    + simpl. rewrite Hs, orb_false_r. apply bool_decide_eq_false.
      unfold pretty_N_char, LF. by repeat case_match.
  - assert (x = 0%N) as -> by lia. by rewrite pretty_N_go_0.
Qed.

Lemma contains_LF_pretty (n : nat) : contains LF (pretty n) = false.
Proof.
  unfold pretty, pretty_nat, pretty, pretty_N.
  case_decide; [done|]. by apply contains_LF_pretty_N_go.
Qed.

(** ** The text of a plan *)

Lemma format_line_numbered (i : nat) (step : string) :
  Tools.format_line i step = numbered i step +:+ nl.
Proof. unfold Tools.format_line, numbered. by rewrite !app_assoc_str. Qed.

Lemma contains_LF_numbered (i : nat) (step : string) :
  contains LF step = false → contains LF (numbered i step) = false.
Proof.
  intros Hs. unfold numbered.
  by rewrite !contains_app, contains_LF_pretty, Hs.
Qed.

Lemma lines_plan_from (n : nat) (steps : list string) :
  Forall (λ step, contains LF step = false) steps →
  lines (join "" (map (λ '(i, step), Tools.format_line i step) (enumerate_from n steps)))
  = map (λ '(i, step), numbered i step) (enumerate_from n steps).
Proof.
  intros Hs. revert n. induction Hs as [|step steps Hstep _ IH]; intros n; [done|].
  cbn [enumerate_from map]. rewrite join_empty_cons, format_line_numbered, app_assoc_str.
  rewrite lines_app_nl by by apply contains_LF_numbered.
  by rewrite IH.
Qed.

Lemma enumerate_from_length {A : Type} (n : nat) (l : list A) :
  length (enumerate_from n l) = length l.
Proof. revert n. induction l as [|x l IH]; intros n; simpl; [done|]. by rewrite IH. Qed.

Lemma enumerate_from_lookup {A : Type} (n i : nat) (l : list A) :
  enumerate_from n l !! i = (λ x, (n + i, x)) <$> l !! i.
Proof.
  revert n i. induction l as [|x l IH]; intros n [|i]; simpl; try done.
  - by rewrite Nat.add_0_r.
  - rewrite IH. by replace (S n + i) with (n + S i) by lia.
Qed.

Lemma lines_plan_text (steps : list string) :
  Forall (λ step, contains LF step = false) steps →
  lines (Tools.plan_text steps) = map (λ '(i, step), numbered i step) (enumerate steps).
Proof. apply lines_plan_from. Qed.

(** The text of a plan is its numbered lines, each followed by a line
    feed. *)
Lemma unlines_plan_from (n : nat) (steps : list string) :
  unlines (map (λ '(i, step), numbered i step) (enumerate_from n steps))
  = join "" (map (λ '(i, step), Tools.format_line i step) (enumerate_from n steps)).
Proof.
  unfold unlines. revert n. induction steps as [|step steps IH]; intros n; [done|].
  cbn [enumerate_from map]. by rewrite !join_empty_cons, IH, format_line_numbered.
Qed.

(** ** Paths and their strings *)

Example parse_examples :
  str (parse "/tmp//plan.txt") = "/tmp/plan.txt" ∧
  str (parse "//srv/./lab8/") = "//srv/lab8" ∧
  str (parse "///srv") = "/srv" ∧
  str (parse "") = "." ∧
  str (parse "logs/../plan.txt") = "logs/../plan.txt" ∧
  str (joinpath (parse "/srv/lab8/logs") "autogen_plan.txt")
    = "/srv/lab8/logs/autogen_plan.txt" ∧
  parents (parse "/srv/lab8/AutoGen/src/tools.py") 2 = Ok (parse "/srv/lab8") ∧
  parents (parse "/src/tools.py") 2 = Raise IndexError.
Proof. vm_compute. by repeat split. Qed.

Lemma substring_0_0 s : String.substring 0 0 s = "".
Proof. by destruct s. Qed.

Lemma char_at_0 c s : char_at 0 (String c s) = String c "".
Proof. unfold char_at. cbn. by rewrite substring_0_0. Qed.

Lemma char_at_S i c s : char_at (S i) (String c s) = char_at i s.
Proof. reflexivity. Qed.

Lemma split_fields sep s : Forall (λ f, contains sep f = false) (split sep s).
Proof.
  induction s as [|c s IH]; cbn [split].
  - by repeat constructor.
  - case_decide as Hc; [by constructor|].
    destruct (split sep s) as [|f fs].
    + repeat constructor. cbn. by rewrite bool_decide_eq_false_2.
    + inversion IH as [|?? Hf Hfs]; subst. constructor; [|done].
      cbn. by rewrite bool_decide_eq_false_2.
Qed.

Lemma split_plain sep x : contains sep x = false → split sep x = [x].
Proof.
  induction x as [|c x IH]; [done|]. cbn [contains split].
  intros [Hc Hx]%orb_false_iff. apply bool_decide_eq_false in Hc.
  by rewrite decide_False, IH.
Qed.

Lemma split_app_sep sep x r :
  contains sep x = false → split sep (x +:+ String sep r) = x :: split sep r.
Proof.
  induction x as [|c x IH].
  - intros _. rewrite app_empty_l. cbn [split]. by rewrite decide_True.
  - cbn [contains]. intros [Hc Hx]%orb_false_iff.
    apply bool_decide_eq_false in Hc.
    rewrite app_cons. cbn [split]. by rewrite decide_False, IH.
Qed.

Lemma split_join segs :
  segs ≠ [] → Forall (λ x, contains slash x = false) segs →
  split slash (join "/" segs) = segs.
Proof.
  intros Hne Hs. induction Hs as [|x [|y l] Hx Hl IH]; [done|..].
  - by apply split_plain.
  - change (join "/" (x :: y :: l)) with (x +:+ String slash (join "/" (y :: l))).
    by rewrite split_app_sep, IH.
Qed.

Lemma segment_ok_spec x :
  segment_ok x = true → keep_segment x = true ∧ contains slash x = false.
Proof.
  unfold segment_ok. intros [? ?%negb_true_iff]%andb_true_iff. done.
Qed.

Lemma filter_segments_ok segs :
  forallb segment_ok segs = true →
  filter (λ x, keep_segment x = true) segs = segs ∧
  Forall (λ x, contains slash x = false) segs.
Proof.
  induction segs as [|x segs IH]; [done|]. cbn [forallb].
  intros [[Hk Hx]%segment_ok_spec [IH1 IH2]%IH]%andb_true_iff.
  split; [|by constructor]. by rewrite filter_cons_True, IH1.
Qed.

(** A well-formed component starts with a character that is no slash. *)
Lemma segment_ok_head x :
  segment_ok x = true → ∃ c x', x = String c x' ∧ c ≠ slash.
Proof.
  intros [Hk Hx]%segment_ok_spec. destruct x as [|c x']; [done|].
  exists c, x'. split; [done|]. cbn in Hx.
  by apply orb_false_iff in Hx as [?%bool_decide_eq_false _].
Qed.

Lemma join_head c x' l : ∃ r, join "/" (String c x' :: l) = String c r.
Proof. destruct l; cbn; eauto. Qed.

Lemma parse_well_formed s : well_formed (parse s) = true.
Proof.
  unfold well_formed. apply andb_true_iff. split.
  - change (anchor (parse s)) with (splitroot s). unfold splitroot.
    by repeat case_match.
  - change (segments (parse s))
      with (filter (λ x, keep_segment x = true) (split slash s)).
    pose proof (split_fields slash s) as Hf.
    induction Hf as [|x l Hx Hl IH]; [done|].
    destruct (decide (keep_segment x = true)) as [Hk|Hk].
    + rewrite filter_cons_True by done. cbn [forallb]. rewrite IH.
      unfold segment_ok. by rewrite Hk, Hx.
    + by rewrite filter_cons_False.
Qed.

(** Parsing the string of a well-formed path gives the path back. *)
Lemma parse_str p : well_formed p = true → parse (str p) = p.
Proof.
  destruct p as [a segs]. unfold well_formed. cbn [anchor segments].
  intros [Ha Hsegs]%andb_true_iff.
  pose proof (filter_segments_ok _ Hsegs) as [Hfilter Hplain].
  assert (a = "" ∨ a = "/" ∨ a = "//") as Hcases.
  { repeat (apply orb_true_iff in Ha as [Ha|Ha]);
      apply bool_decide_eq_true in Ha; auto. }
  destruct segs as [|x l].
  - by destruct Hcases as [->|[->| ->]].
  - cbn [forallb] in Hsegs. apply andb_true_iff in Hsegs as [Hx _].
    apply segment_ok_head in Hx as (c & x' & -> & Hc).
    destruct (join_head c x' l) as [r Hr].
    assert (split slash (join "/" (String c x' :: l)) = String c x' :: l) as Hsplit
      by by apply split_join.
    assert (bool_decide (String c "" = "/") = false) as Hc'.
    { apply bool_decide_eq_false. intros [= ->]. done. }
    destruct Hcases as [->|[->| ->]]; unfold parse, str; cbn [anchor segments];
      rewrite ?app_cons, app_empty_l; f_equal.
    + unfold splitroot. by rewrite Hr, char_at_0, Hc'.
    + by rewrite Hsplit.
    + unfold splitroot. rewrite Hr.
      rewrite char_at_0, char_at_S, char_at_0, Hc'. reflexivity.
    + cbn [split]. rewrite decide_True by done.
      rewrite Hsplit. by rewrite filter_cons_False.
    + unfold splitroot. rewrite Hr.
      rewrite char_at_0, !char_at_S, !char_at_0, Hc'. reflexivity.
    + cbn [split]. rewrite !decide_True by done.
      rewrite Hsplit. by rewrite 2!filter_cons_False by done.
Qed.

Lemma forallb_take {A : Type} (f : A → bool) n (l : list A) :
  forallb f l = true → forallb f (take n l) = true.
Proof.
  revert n. induction l as [|x l IH]; intros [|n]; cbn; try done.
  intros [-> ?]%andb_true_iff. cbn. auto.
Qed.

Lemma parents_well_formed p i root :
  well_formed p = true → parents p i = Ok root → well_formed root = true.
Proof.
  unfold well_formed, parents. intros [Ha Hs]%andb_true_iff.
  destruct (decide (i < length (segments p))); [|done].
  intros [= <-]. cbn [anchor segments]. by rewrite Ha, forallb_take.
Qed.

Lemma joinpath_well_formed p key :
  well_formed p = true → well_formed (joinpath p key) = true.
Proof.
  intros Hp. pose proof (parse_well_formed key) as Hq. unfold joinpath.
  destruct (anchor (parse key)) eqn:Ha; [|done].
  unfold well_formed in *. cbn [anchor segments].
  apply andb_true_iff in Hp as [-> Hp]. apply andb_true_iff in Hq as [_ Hq].
  by rewrite forallb_app, Hp, Hq.
Qed.

(** ** The file system *)

Lemma node_at_emit c w k : OS.node_at (emit c w) k = OS.node_at w k.
Proof. by destruct k. Qed.

Lemma namei_emit c w cur segs : OS.namei (emit c w) cur segs = OS.namei w cur segs.
Proof.
  revert cur. induction segs as [|s rest IH]; intros cur; [done|].
  cbn [OS.namei]. rewrite node_at_emit.
  destruct (OS.node_at w cur) as [[|d]|]; auto. by destruct (_ <? _).
Qed.

Lemma resolve_emit c w p : OS.resolve (emit c w) p = OS.resolve w p.
Proof. unfold OS.resolve. by rewrite namei_emit. Qed.

Lemma lookup_emit c w p : OS.lookup (emit c w) p = OS.lookup w p.
Proof. unfold OS.lookup. by rewrite resolve_emit. Qed.

Lemma lookup_resolve w p k : OS.lookup w p = Ok k → OS.resolve w p = Ok k.
Proof. unfold OS.lookup. by destruct (_ <=? _). Qed.

Lemma accepted_spec p :
  accepted p = true ↔
  OS.embedded_null p = false ∧ (OS.PATH_MAX <=? String.length (str p)) = false.
Proof.
  unfold accepted. rewrite andb_true_iff, negb_true_iff, Nat.ltb_lt, Nat.leb_gt. done.
Qed.

Lemma lookup_accepted w p : accepted p = true → OS.lookup w p = OS.resolve w p.
Proof. intros [_ Hlen]%accepted_spec. unfold OS.lookup. by rewrite Hlen. Qed.

Lemma lookup_ok_accepted w p k :
  OS.embedded_null p = false → OS.lookup w p = Ok k → accepted p = true.
Proof.
  intros Hnul Hl. apply accepted_spec. split; [done|].
  unfold OS.lookup in Hl. by destruct (_ <=? _).
Qed.

(** What [os.stat] finds. *)
Lemma stat_isdir_eq w p :
  OS.stat_isdir w p =
  if OS.embedded_null p then None
  else match OS.lookup w p with
       | Raise _ => None
       | Ok k =>
           match OS.node_at w k with
           | Some Dir => Some true
           | Some (File _) => Some false
           | None => None
           end
       end.
Proof.
  unfold OS.stat_isdir, OS.stat. destruct (OS.embedded_null p); [done|].
  rewrite lookup_emit. destruct (OS.lookup w p) as [k|e]; [|done].
  rewrite node_at_emit. by destruct (OS.node_at w k) as [[|d]|].
Qed.

Lemma stat_isdir_true w p :
  OS.stat_isdir w p = Some true ↔
  OS.embedded_null p = false ∧
  ∃ k, OS.lookup w p = Ok k ∧ OS.node_at w k = Some Dir.
Proof.
  rewrite stat_isdir_eq. destruct (OS.embedded_null p).
  { split; [done|by intros [? _]]. }
  destruct (OS.lookup w p) as [k|e].
  - split.
    + destruct (OS.node_at w k) as [[|d]|] eqn:Hn; [|done..]. eauto.
    + intros (_ & k' & [= <-] & ->). done.
  - split; [done|]. by intros (_ & k' & ? & _).
Qed.

Lemma stat_isdir_emit c w p : OS.stat_isdir (emit c w) p = OS.stat_isdir w p.
Proof.
  rewrite !stat_isdir_eq, lookup_emit.
  destruct (OS.lookup w p); [|done]. by rewrite node_at_emit.
Qed.

Lemma node_at_set_node_eq k n w : k ≠ [] → OS.node_at (set_node k n w) k = Some n.
Proof. intros Hk. destruct k; [done|]. cbn. apply lookup_insert_eq. Qed.

Lemma node_at_set_node_ne k k' n w :
  k ≠ k' → OS.node_at (set_node k n w) k' = OS.node_at w k'.
Proof. intros Hk. destruct k'; [done|]. cbn. by apply lookup_insert_ne. Qed.

Lemma dirs_kept_refl w : dirs_kept w w.
Proof. by split. Qed.

Lemma dirs_kept_trans w1 w2 w3 : dirs_kept w1 w2 → dirs_kept w2 w3 → dirs_kept w1 w3.
Proof. intros [Hc1 H1] [Hc2 H2]. split; [congruence|]. auto. Qed.

Lemma dirs_kept_emit c w : dirs_kept w (emit c w).
Proof. split; [done|]. intros k. by rewrite node_at_emit. Qed.

(** Binding a name that is not a directory, or binding a name to a
    directory, loses no directory. *)
Lemma dirs_kept_set_node k n w :
  OS.node_at w k ≠ Some Dir ∨ n = Dir → dirs_kept w (set_node k n w).
Proof.
  intros Hk. split; [done|]. intros k' Hk'.
  destruct (decide (k = k')) as [<-|Hne].
  - destruct Hk as [Hk| ->]; [done|].
    destruct k; [done|]. by apply node_at_set_node_eq.
  - by rewrite node_at_set_node_ne.
Qed.

Lemma namei_kept w w' cur segs k :
  dirs_kept w w' → OS.namei w cur segs = Ok k → OS.namei w' cur segs = Ok k.
Proof.
  intros [_ Hd]. revert cur. induction segs as [|s rest IH]; intros cur; [done|].
  cbn [OS.namei]. destruct (OS.node_at w cur) as [[|d]|] eqn:Hcur; [|done..].
  rewrite (Hd _ Hcur). destruct (_ <? _); [done|]. apply IH.
Qed.

Lemma resolve_kept w w' p k :
  dirs_kept w w' → OS.resolve w p = Ok k → OS.resolve w' p = Ok k.
Proof.
  intros Hk. unfold OS.resolve. destruct Hk as [Hc Hd]. rewrite Hc.
  by apply namei_kept.
Qed.

Lemma lookup_kept w w' p k :
  dirs_kept w w' → OS.lookup w p = Ok k → OS.lookup w' p = Ok k.
Proof.
  intros Hk. unfold OS.lookup. destruct (_ <=? _); [done|]. by apply resolve_kept.
Qed.

Lemma stat_isdir_kept w w' p :
  dirs_kept w w' → OS.stat_isdir w p = Some true → OS.stat_isdir w' p = Some true.
Proof.
  intros Hk. rewrite !stat_isdir_true. intros (Hnul & k & Hl & Hn).
  split; [done|]. exists k. split; [by eapply lookup_kept|].
  destruct Hk as [_ Hd]. by apply Hd.
Qed.

(** *** System calls *)

Lemma quiet_refl w : quiet w w.
Proof. split; auto using dirs_kept_refl. Qed.

Lemma quiet_trans w1 w2 w3 : quiet w1 w2 → quiet w2 w3 → quiet w1 w3.
Proof.
  intros [] []. split; [by eapply dirs_kept_trans|congruence..].
Qed.

Lemma OS_mkdir_quiet p w w' r : OS.mkdir p w = (w', r) → quiet w w'.
Proof.
  unfold OS.mkdir. destruct (OS.embedded_null p); [intros [= <- <-]; apply quiet_refl|].
  rewrite lookup_emit.
  destruct (OS.lookup w p) as [k|e] eqn:Hr.
  - rewrite node_at_emit. destruct (OS.node_at w k) as [n|] eqn:Hn.
    + intros [= <- <-]. split; auto using dirs_kept_emit.
    + case_decide; intros [= <- <-]; [split; auto using dirs_kept_emit|].
      split; try done.
      eapply dirs_kept_trans; [apply (dirs_kept_emit (SysMkdir p))|].
      apply dirs_kept_set_node. by right.
  - intros [= <- <-]. split; auto using dirs_kept_emit.
Qed.

Lemma OS_mkdir_ok p w w' : OS.mkdir p w = (w', Ok ()) → OS.stat_isdir w' p = Some true.
Proof.
  unfold OS.mkdir. destruct (OS.embedded_null p) eqn:Hnul; [done|].
  rewrite lookup_emit.
  destruct (OS.lookup w p) as [k|e] eqn:Hr; [|done].
  rewrite node_at_emit. destruct (OS.node_at w k) as [n|] eqn:Hn; [done|].
  case_decide; [done|]. intros [= <-].
  assert (k ≠ []) as Hk by (intros ->; done).
  apply stat_isdir_true. split; [done|]. exists k. split.
  - eapply lookup_kept; [|exact Hr].
    eapply dirs_kept_trans; [apply (dirs_kept_emit (SysMkdir p))|].
    apply dirs_kept_set_node. by right.
  - by rewrite node_at_set_node_eq.
Qed.

(** [os.mkdir] on an existing directory raises [FileExistsError] and
    changes nothing but the trace. *)
Lemma OS_mkdir_exists p w :
  OS.stat_isdir w p = Some true →
  OS.mkdir p w = (emit (SysMkdir p) w, Raise FileExistsError).
Proof.
  intros (Hnul & k & Hl & Hn)%stat_isdir_true.
  unfold OS.mkdir. by rewrite Hnul, lookup_emit, Hl, node_at_emit, Hn.
Qed.

(** The exceptions of the model on the example world: writing to a
    directory, below a missing directory and below a regular file;
    making a directory where a file is and below a file. *)
Example example_world_errors :
  (Pathlib.write_text (parse "/srv/lab8/AutoGen") "x" example_world).2
    = Raise IsADirectoryError ∧
  (Pathlib.write_text (parse "/srv/lab8/logs/plan.txt") "x" example_world).2
    = Raise FileNotFoundError ∧
  (Pathlib.write_text (parse "/srv/lab8/AutoGen/src/tools.py/plan.txt") "x"
     example_world).2 = Raise NotADirectoryError ∧
  (Pathlib.mkdir true true (parse "/srv/lab8/AutoGen/src/tools.py") example_world).2
    = Raise FileExistsError ∧
  (Pathlib.mkdir true true (parse "/srv/lab8/AutoGen/src/tools.py/logs")
     example_world).2 = Raise NotADirectoryError ∧
  (Pathlib.mkdir false true (parse "/srv/lab8/logs/deep") example_world).2
    = Raise FileNotFoundError ∧
  (Pathlib.mkdir true true (parse "/srv/lab8/logs/deep") example_world).2 = Ok ().
Proof. vm_compute. by repeat split. Qed.

(** The names the system refuses, on the example world: a component of
    256 bytes (ENAMETOOLONG) once the directory that would hold it is
    found, but not below a missing directory or a regular file; a path
    string of more than [PATH_MAX] bytes, whatever is there; a null
    byte, for which no call is made. *)
Example example_world_names :
  (Pathlib.write_text (joinpath (parse "/tmp") (letters 256)) "x" example_world).2
    = Raise OSError ∧
  (Pathlib.write_text (joinpath (parse "/tmp") (letters 255)) "x" example_world).2
    = Ok 1 ∧
  (Pathlib.mkdir true true (joinpath (parse "/tmp") (letters 256)) example_world).2
    = Raise OSError ∧
  (Pathlib.is_dir (joinpath (parse "/tmp") (letters 256)) example_world).2
    = Raise OSError ∧
  (Pathlib.write_text (joinpath (parse "/tmp/missing") (letters 256)) "x" example_world).2
    = Raise FileNotFoundError ∧
  (Pathlib.write_text (joinpath (parse "/srv/lab8/AutoGen/src/tools.py") (letters 256))
     "x" example_world).2 = Raise NotADirectoryError ∧
  (Pathlib.write_text (joinpath (parse "/tmp") deep_name) "x" example_world).2
    = Raise OSError ∧
  Pathlib.write_text (joinpath (parse "/tmp") null_name) "x" example_world
    = (example_world, Raise ValueError) ∧
  Pathlib.mkdir true true (joinpath (parse "/tmp") null_name) example_world
    = (example_world, Raise ValueError) ∧
  Pathlib.is_dir (joinpath (parse "/tmp") null_name) example_world
    = (example_world, Ok false).
Proof. vm_compute. by repeat split. Qed.

(** *** [Path.mkdir] *)

Lemma is_dir_eq p w :
  Pathlib.is_dir p w =
  if OS.embedded_null p then (w, Ok false)
  else
    (emit (SysStat p) w,
     match OS.lookup w p with
     | Ok k =>
         match OS.node_at w k with
         | Some Dir => Ok true
         | _ => Ok false
         end
     | Raise FileNotFoundError | Raise NotADirectoryError | Raise ValueError => Ok false
     | Raise e => Raise e
     end).
Proof.
  unfold Pathlib.is_dir, try_except, bind, OS.stat.
  destruct (OS.embedded_null p); [done|]. rewrite lookup_emit.
  destruct (OS.lookup w p) as [k|e].
  - rewrite node_at_emit. by destruct (OS.node_at w k) as [[|d]|].
  - by destruct e.
Qed.

(** [is_dir] makes at most the one call [os.stat]. *)
Lemma is_dir_world p w w' r :
  Pathlib.is_dir p w = (w', r) → w' = w ∨ w' = emit (SysStat p) w.
Proof.
  rewrite is_dir_eq. destruct (OS.embedded_null p); intros [= <- _]; auto.
Qed.

Lemma is_dir_true p w w' :
  Pathlib.is_dir p w = (w', Ok true) →
  w' = emit (SysStat p) w ∧ OS.stat_isdir w p = Some true.
Proof.
  rewrite is_dir_eq, stat_isdir_eq. destruct (OS.embedded_null p); [done|].
  intros [= <- H]. split; [done|]. destruct (OS.lookup w p) as [k|e].
  - by destruct (OS.node_at w k) as [[|d]|].
  - by destruct e.
Qed.

Lemma is_dir_exists p w :
  OS.stat_isdir w p = Some true → Pathlib.is_dir p w = (emit (SysStat p) w, Ok true).
Proof.
  intros (Hnul & k & Hl & Hn)%stat_isdir_true. by rewrite is_dir_eq, Hnul, Hl, Hn.
Qed.

Lemma quiet_emit_stat p w : quiet w (emit (SysStat p) w).
Proof. split; auto using dirs_kept_emit. Qed.

Lemma is_dir_quiet p w w' r : Pathlib.is_dir p w = (w', r) → quiet w w'.
Proof.
  intros [->| ->]%is_dir_world; [apply quiet_refl|apply quiet_emit_stat].
Qed.

Lemma except_OSError_quiet exist_ok p e w w' r :
  Pathlib.except_OSError exist_ok p e w = (w', r) → quiet w w'.
Proof.
  unfold Pathlib.except_OSError. destruct (is_OSError e).
  - destruct exist_ok; cbn [negb]; [|intros [= <- <-]; apply quiet_refl].
    unfold bind. destruct (Pathlib.is_dir p w) as [w1 [d|e']] eqn:Hd;
      apply is_dir_quiet in Hd.
    + destruct (negb d); by intros [= <- <-].
    + by intros [= <- <-].
  - intros [= <- <-]. apply quiet_refl.
Qed.

Lemma except_OSError_ok exist_ok p e w w' :
  Pathlib.except_OSError exist_ok p e w = (w', Ok ()) → OS.stat_isdir w' p = Some true.
Proof.
  unfold Pathlib.except_OSError. destruct (is_OSError e); [|done].
  destruct exist_ok; [|done]. cbn [negb].
  unfold bind. destruct (Pathlib.is_dir p w) as [w1 [[|]|e']] eqn:Hd; [|done..].
  apply is_dir_true in Hd as [-> Hs].
  intros [= <-]. by rewrite stat_isdir_emit.
Qed.

Lemma except_OSError_exists p e w :
  is_OSError e = true → OS.stat_isdir w p = Some true →
  Pathlib.except_OSError true p e w = (emit (SysStat p) w, Ok ()).
Proof.
  intros He Hs. unfold Pathlib.except_OSError. rewrite He. cbn [negb].
  unfold bind. by rewrite (is_dir_exists _ _ Hs).
Qed.

Lemma mkdir_parents_eq exist_ok a rsegs :
  Pathlib.mkdir_parents exist_ok a rsegs =
  let p := mkPath a (rev rsegs) in
  try_except (OS.mkdir p) (λ e,
    match e with
    | FileNotFoundError =>
        match rsegs with
        | [] => raise e
        | _ :: up => Pathlib.mkdir_parents true a up ;; Pathlib.mkdir_leaf exist_ok p
        end
    | _ => Pathlib.except_OSError exist_ok p e
    end).
Proof. destruct rsegs; reflexivity. Qed.

Lemma mkdir_leaf_quiet exist_ok p w w' r :
  Pathlib.mkdir_leaf exist_ok p w = (w', r) → quiet w w'.
Proof.
  unfold Pathlib.mkdir_leaf, try_except.
  destruct (OS.mkdir p w) as [w1 [[]|e]] eqn:Hm.
  - intros [= <- <-]. by eapply OS_mkdir_quiet.
  - intros He. eapply quiet_trans; [by eapply OS_mkdir_quiet|].
    destruct e; try (by eapply except_OSError_quiet).
    injection He as <- <-. apply quiet_refl.
Qed.

Lemma mkdir_leaf_ok exist_ok p w w' :
  Pathlib.mkdir_leaf exist_ok p w = (w', Ok ()) → OS.stat_isdir w' p = Some true.
Proof.
  unfold Pathlib.mkdir_leaf, try_except.
  destruct (OS.mkdir p w) as [w1 [[]|e]] eqn:Hm.
  - intros [= <-]. by eapply OS_mkdir_ok.
  - destruct e; try apply except_OSError_ok. done.
Qed.

Lemma mkdir_parents_quiet exist_ok a rsegs w w' r :
  Pathlib.mkdir_parents exist_ok a rsegs w = (w', r) → quiet w w'.
Proof.
  revert exist_ok w w' r.
  induction rsegs as [|s up IH]; intros exist_ok w w' r;
    rewrite mkdir_parents_eq; cbn zeta; unfold try_except;
    destruct (OS.mkdir _ w) as [w1 [[]|e]] eqn:Hm;
    try (intros [= <- <-]; by eapply OS_mkdir_quiet);
    intros He; (eapply quiet_trans; [by eapply OS_mkdir_quiet|]);
    destruct e; try (by eapply except_OSError_quiet).
  - injection He as <- <-. apply quiet_refl.
  - unfold bind in He.
    destruct (Pathlib.mkdir_parents true a up w1) as [w2 [[]|e2]] eqn:Hup.
    + eapply quiet_trans; [by eapply IH|]. by eapply mkdir_leaf_quiet.
    + injection He as <- <-. by eapply IH.
Qed.

Lemma mkdir_parents_ok exist_ok a rsegs w w' :
  Pathlib.mkdir_parents exist_ok a rsegs w = (w', Ok ()) →
  OS.stat_isdir w' (mkPath a (rev rsegs)) = Some true.
Proof.
  rewrite mkdir_parents_eq; cbn zeta; unfold try_except.
  destruct (OS.mkdir _ w) as [w1 [[]|e]] eqn:Hm.
  - intros [= <-]. by eapply OS_mkdir_ok.
  - destruct e; try apply except_OSError_ok.
    destruct rsegs as [|s up]; [done|].
    unfold bind.
    destruct (Pathlib.mkdir_parents true a up w1) as [w2 [[]|e2]]; [|done].
    apply mkdir_leaf_ok.
Qed.

Lemma path_eta (p : Path) : mkPath (anchor p) (rev (rev (segments p))) = p.
Proof. rewrite rev_involutive. by destruct p. Qed.

Lemma mkdir_quiet parents exist_ok p w w' r :
  Pathlib.mkdir parents exist_ok p w = (w', r) → quiet w w'.
Proof.
  unfold Pathlib.mkdir. destruct parents.
  - apply mkdir_parents_quiet.
  - apply mkdir_leaf_quiet.
Qed.

(** A [mkdir] that returns leaves a directory at the path. *)
Lemma mkdir_ok parents exist_ok p w w' :
  Pathlib.mkdir parents exist_ok p w = (w', Ok ()) → OS.stat_isdir w' p = Some true.
Proof.
  unfold Pathlib.mkdir. destruct parents.
  - intros H%mkdir_parents_ok. by rewrite path_eta in H.
  - apply mkdir_leaf_ok.
Qed.

(** With [exist_ok=True], [mkdir] of an existing directory returns, having
    made the two calls [os.mkdir] and [os.stat] and nothing else. *)
Lemma mkdir_exists parents p w :
  OS.stat_isdir w p = Some true →
  Pathlib.mkdir parents true p w = (emit (SysStat p) (emit (SysMkdir p) w), Ok ()).
Proof.
  intros Hs. unfold Pathlib.mkdir. destruct parents.
  - rewrite mkdir_parents_eq; cbn zeta. rewrite path_eta. unfold try_except.
    rewrite (OS_mkdir_exists _ _ Hs).
    apply except_OSError_exists; [done|]. by rewrite stat_isdir_emit.
  - unfold Pathlib.mkdir_leaf, try_except.
    rewrite (OS_mkdir_exists _ _ Hs).
    apply except_OSError_exists; [done|]. by rewrite stat_isdir_emit.
Qed.

(** *** [Path.write_text] *)

Lemma open_w_kept p w w' r : OS.open_w p w = (w', r) → dirs_kept w w'.
Proof.
  unfold OS.open_w. destruct (OS.embedded_null p); [intros [= <- <-]; apply dirs_kept_refl|].
  rewrite lookup_emit.
  destruct (OS.lookup w p) as [k|e]; [|intros [= <- <-]; apply dirs_kept_emit].
  rewrite node_at_emit.
  destruct (OS.node_at w k) as [[|d]|] eqn:Hn; [| |];
    repeat case_decide; intros [= <- <-]; try apply dirs_kept_emit;
    (eapply dirs_kept_trans; [apply (dirs_kept_emit (SysOpenW p))|]);
    apply dirs_kept_set_node; left; rewrite node_at_emit, Hn; done.
Qed.

(** A successful [open(p, "w")] leaves an empty file under the name [p]
    resolves to. *)
Lemma open_w_ok p w w' fd :
  OS.open_w p w = (w', Ok fd) →
  OS.resolve w' p = Ok fd ∧ OS.node_at w' fd = Some (File "") ∧ fd ≠ [] ∧
  trace w' = SysOpenW p :: trace w ∧ environ w' = environ w ∧ readonly w' = readonly w.
Proof.
  intros Ho. pose proof (open_w_kept _ _ _ _ Ho) as Hk. revert Ho.
  unfold OS.open_w. destruct (OS.embedded_null p); [done|]. rewrite lookup_emit.
  destruct (OS.lookup w p) as [k|e] eqn:Hr; [|done]. apply lookup_resolve in Hr.
  rewrite node_at_emit.
  destruct (OS.node_at w k) as [[|d]|] eqn:Hn; [done| |];
    case_decide; try done; intros [= <- <-];
    (assert (k ≠ []) as Hne by (intros ->; done));
    (split; [by eapply resolve_kept|]);
    rewrite node_at_set_node_eq by done; done.
Qed.

(** An [open(p, "w")] that raises has made no file; when the path holds
    a null byte it has not even called. *)
Lemma open_w_raise p w w' e :
  OS.open_w p w = (w', Raise e) → w' = w ∨ w' = emit (SysOpenW p) w.
Proof.
  unfold OS.open_w. destruct (OS.embedded_null p); [intros [= <- _]; by left|].
  rewrite lookup_emit.
  destruct (OS.lookup w p) as [k|e']; [|intros [= <- <-]; by right].
  rewrite node_at_emit.
  destruct (OS.node_at w k) as [[|d]|]; repeat case_decide; intros [= <-]; by right.
Qed.

Lemma write_file fd data old w :
  OS.node_at w fd = Some (File old) →
  OS.write fd data w =
  (set_node fd (File (old +:+ data)) (emit (SysWrite fd data) w), Ok (String.length data)).
Proof. intros Hn. unfold OS.write. by rewrite node_at_emit, Hn. Qed.

(** A [write_text] that returns leaves exactly [data] in the file. *)
Lemma write_text_ok p data w w' n :
  Pathlib.write_text p data w = (w', Ok n) →
  Pathlib.file_content w' p = Some data ∧ dirs_kept w w' ∧
  environ w' = environ w ∧ readonly w' = readonly w ∧
  ∃ fd, trace w' = SysWrite fd data :: SysOpenW p :: trace w.
Proof.
  unfold Pathlib.write_text, bind.
  destruct (OS.open_w p w) as [w1 [fd|e]] eqn:Ho; [|done].
  pose proof (open_w_kept _ _ _ _ Ho) as Hk.
  apply open_w_ok in Ho as (Hr & Hn & Hfd & Ht & He & Hro).
  rewrite (write_file _ _ _ _ Hn). intros [= <- <-].
  assert (dirs_kept w1 (set_node fd (File ("" +:+ data)) (emit (SysWrite fd data) w1)))
    as Hk'.
  { eapply dirs_kept_trans; [apply (dirs_kept_emit (SysWrite fd data))|].
    apply dirs_kept_set_node. left. by rewrite node_at_emit, Hn. }
  split; [|split; [by eapply dirs_kept_trans|]].
  - unfold Pathlib.file_content.
    rewrite (resolve_kept _ _ _ _ Hk' Hr).
    by rewrite node_at_set_node_eq.
  - cbn. rewrite Ht. eauto.
Qed.

(** A [write_text] that raises failed in [open] and wrote nothing. *)
Lemma write_text_raise p data w w' e :
  Pathlib.write_text p data w = (w', Raise e) → w' = w ∨ w' = emit (SysOpenW p) w.
Proof.
  unfold Pathlib.write_text, bind.
  destruct (OS.open_w p w) as [w1 [fd|e']] eqn:Ho.
  - apply open_w_ok in Ho as (_ & Hn & _).
    by rewrite (write_file _ _ _ _ Hn).
  - intros [= <- <-]. by eapply open_w_raise.
Qed.

Lemma writable_emit c w p : writable (emit c w) p = writable w p.
Proof.
  unfold writable. rewrite lookup_emit.
  destruct (OS.lookup w p); [|done]. by rewrite node_at_emit.
Qed.

(** [write_text] returns exactly when the file is writable. *)
Lemma write_text_writable p data w :
  writable w p = true ↔ ∃ w' n, Pathlib.write_text p data w = (w', Ok n).
Proof.
  unfold writable, Pathlib.write_text, bind, OS.open_w.
  destruct (OS.embedded_null p); [split; [done|by intros (? & ? & ?)]|].
  cbn [negb andb]. rewrite lookup_emit.
  destruct (OS.lookup w p) as [k|e]; [|split; [done|by intros (? & ? & ?)]].
  rewrite node_at_emit.
  destruct (OS.node_at w k) as [[|d]|] eqn:Hn.
  - split; [done|by intros (? & ? & ?)].
  - case_decide as Hro.
    + rewrite bool_decide_eq_true_2 by done. split; [done|by intros (? & ? & ?)].
    + rewrite bool_decide_eq_false_2 by done. split; [intros _|done].
      assert (k ≠ []) as Hk by (intros ->; done).
      erewrite write_file; [eauto|]. by apply node_at_set_node_eq.
  - case_decide as Hro.
    + rewrite bool_decide_eq_true_2 by done. split; [done|by intros (? & ? & ?)].
    + rewrite bool_decide_eq_false_2 by done. split; [intros _|done].
      assert (k ≠ []) as Hk by (intros ->; done).
      erewrite write_file; [eauto|]. by apply node_at_set_node_eq.
Qed.

Lemma write_text_kept p data w w' r :
  Pathlib.write_text p data w = (w', r) → dirs_kept w w'.
Proof.
  destruct r as [n|e].
  - intros H. by apply write_text_ok in H as (_ & ? & _).
  - intros [->| ->]%write_text_raise; [apply dirs_kept_refl|apply dirs_kept_emit].
Qed.

(** A [write_text] that returns was given a path the system takes. *)
Lemma write_text_accepted p data w w' n :
  Pathlib.write_text p data w = (w', Ok n) → accepted p = true.
Proof.
  unfold Pathlib.write_text, bind, OS.open_w.
  destruct (OS.embedded_null p) eqn:Hnul; [done|]. rewrite lookup_emit.
  destruct (OS.lookup w p) as [k|e] eqn:Hl; [|done]. intros _.
  by eapply lookup_ok_accepted.
Qed.

(** ** [save_plan_to_file] *)

Lemma plan_text_eq steps :
  join "" (map (λ '(i, step), Tools.format_line i step) (enumerate steps))
  = Tools.plan_text steps.
Proof. reflexivity. Qed.

(** The function is the sequence of its two effects. *)
Lemma save_plan_to_file_eq this_file steps filename root w :
  parents this_file 2 = Ok root →
  Tools.save_plan_to_file this_file steps filename w =
  match Pathlib.mkdir true true (joinpath root "logs") w with
  | (w1, Ok _) =>
      match Pathlib.write_text (joinpath (joinpath root "logs") filename)
              (Tools.plan_text steps) w1 with
      | (w2, Ok _) => (w2, Ok (str (joinpath (joinpath root "logs") filename)))
      | (w2, Raise e) => (w2, Raise e)
      end
  | (w1, Raise e) => (w1, Raise e)
  end.
Proof.
  intros Hroot. unfold Tools.save_plan_to_file, bind, lift. rewrite Hroot.
  destruct (Pathlib.mkdir _ _ _ w) as [w1 [[]|e]]; [|done].
  rewrite plan_text_eq.
  by destruct (Pathlib.write_text _ _ w1) as [w2 [n|e]].
Qed.

Lemma save_plan_to_file_no_root this_file steps filename e w :
  parents this_file 2 = Raise e →
  Tools.save_plan_to_file this_file steps filename w = (w, Raise e).
Proof.
  intros Hroot. unfold Tools.save_plan_to_file, bind, lift. by rewrite Hroot.
Qed.

Lemma plan_path_root this_file filename root :
  parents this_file 2 = Ok root →
  plan_path this_file filename = Ok (joinpath (joinpath root "logs") filename).
Proof. intros Hroot. unfold plan_path, Tools.logs_dir. by rewrite Hroot. Qed.

(** What a call that returns has done. *)
Lemma save_plan_to_file_ok this_file steps filename w w' s :
  Tools.save_plan_to_file this_file steps filename w = (w', Ok s) →
  ∃ path fd,
    plan_path this_file filename = Ok path ∧ s = str path ∧
    Pathlib.file_content w' path = Some (Tools.plan_text steps) ∧
    trace w' = SysWrite fd (Tools.plan_text steps) :: SysOpenW path :: tl (tl (trace w')).
Proof.
  destruct (parents this_file 2) as [root|e] eqn:Hroot.
  - rewrite (save_plan_to_file_eq _ _ _ _ _ Hroot).
    destruct (Pathlib.mkdir _ _ _ w) as [w1 [[]|e]]; [|done].
    destruct (Pathlib.write_text _ _ w1) as [w2 [n|e]] eqn:Hw; [|done].
    intros [= <- <-].
    apply write_text_ok in Hw as (Hc & _ & _ & _ & fd & Ht).
    exists (joinpath (joinpath root "logs") filename), fd.
    rewrite (plan_path_root _ _ _ Hroot), Ht. done.
  - by rewrite (save_plan_to_file_no_root _ _ _ _ _ Hroot).
Qed.

(** When the logs directory exists and the file is writable, the call
    returns the string of its path. *)
Lemma save_plan_to_file_succeeds this_file steps filename root w :
  parents this_file 2 = Ok root →
  OS.stat_isdir w (joinpath root "logs") = Some true →
  writable w (joinpath (joinpath root "logs") filename) = true →
  ∃ w', Tools.save_plan_to_file this_file steps filename w
        = (w', Ok (str (joinpath (joinpath root "logs") filename))).
Proof.
  intros Hroot Hdir Hw. rewrite (save_plan_to_file_eq _ _ _ _ _ Hroot).
  rewrite (mkdir_exists _ _ _ Hdir).
  rewrite <-(writable_emit (SysMkdir (joinpath root "logs"))) in Hw.
  rewrite <-(writable_emit (SysStat (joinpath root "logs"))) in Hw.
  apply (write_text_writable _ (Tools.plan_text steps)) in Hw as (w' & n & ->).
  eauto.
Qed.

(** The string a call returns names the file it wrote: parsed again, it
    is the path written. *)
Lemma save_plan_to_file_returns this_file steps filename w w' s :
  well_formed this_file = true →
  Tools.save_plan_to_file this_file steps filename w = (w', Ok s) →
  Pathlib.file_content w' (parse s) = Some (Tools.plan_text steps).
Proof.
  intros Hwf (path & fd & Hp & -> & Hc & _)%save_plan_to_file_ok.
  rewrite parse_str; [done|].
  unfold plan_path, Tools.logs_dir in Hp.
  destruct (parents this_file 2) as [root|e] eqn:Hroot; [|done].
  injection Hp as <-.
  by eapply joinpath_well_formed, joinpath_well_formed, parents_well_formed.
Qed.

Lemma save_plan_to_file_kept this_file steps filename w :
  dirs_kept w (Tools.save_plan_to_file this_file steps filename w).1.
Proof.
  destruct (parents this_file 2) as [root|e] eqn:Hroot.
  - rewrite (save_plan_to_file_eq _ _ _ _ _ Hroot).
    destruct (Pathlib.mkdir _ _ _ w) as [w1 [[]|e]] eqn:Hm;
      apply mkdir_quiet in Hm as [Hm _ _ _ _]; [|done].
    destruct (Pathlib.write_text _ _ w1) as [w2 [n|e]] eqn:Hw;
      apply write_text_kept in Hw; by eapply dirs_kept_trans.
  - rewrite (save_plan_to_file_no_root _ _ _ _ _ Hroot). apply dirs_kept_refl.
Qed.

(** *** The lines of the file *)

Lemma single_line_Forall steps :
  single_line steps = true → Forall (λ step, contains LF step = false) steps.
Proof.
  unfold single_line. rewrite forallb_forall, Forall_forall.
  intros H step Hin. apply negb_true_iff, H. by apply list_elem_of_In.
Qed.

(** C1, as amended. When no step holds a line feed, the file written by
    [save_plan_to_file] for N steps has exactly N lines, every one of
    them ended by a line feed (the text is its lines, each followed by a
    line feed, and nothing else), and line i (counting from 1) is the
    decimal of i, a dot, a space and the i-th step. *)
Theorem save_plan_to_file_lines this_file steps filename w w' s :
  single_line steps = true →
  Tools.save_plan_to_file this_file steps filename w = (w', Ok s) →
  ∃ path text,
    plan_path this_file filename = Ok path ∧
    Pathlib.file_content w' path = Some text ∧
    text = unlines (lines text) ∧
    length (lines text) = length steps ∧
    ∀ i step, steps !! i = Some step →
      lines text !! i = Some (pretty (i + 1) +:+ ". " +:+ step).
Proof.
  intros Hs%single_line_Forall (path & fd & Hp & _ & Hc & _)%save_plan_to_file_ok.
  exists path, (Tools.plan_text steps). split; [done|]. split; [done|].
  rewrite (lines_plan_text _ Hs). split; [|split].
  - unfold enumerate. by rewrite unlines_plan_from.
  - unfold enumerate. by rewrite length_map, enumerate_from_length.
  - intros i step Hi. rewrite list_lookup_fmap. unfold enumerate.
    by rewrite enumerate_from_lookup, Hi.
Qed.

Lemma save_plan_to_file_lines_witness :
  ∃ path text,
    plan_path example_file "autogen_plan.txt" = Ok path ∧
    Pathlib.file_content
      (Tools.save_plan_to_file example_file ["Collect data"; "Train model"]
         "autogen_plan.txt" example_world).1 path = Some text ∧
    text = unlines (lines text) ∧
    length (lines text) = 2 ∧
    ∀ i step, ["Collect data"; "Train model"] !! i = Some step →
      lines text !! i = Some (pretty (i + 1) +:+ ". " +:+ step).
Proof.
  apply (save_plan_to_file_lines example_file ["Collect data"; "Train model"]
           "autogen_plan.txt" example_world _ "/srv/lab8/logs/autogen_plan.txt").
  - reflexivity.
  - vm_compute. reflexivity.
Defined.

(** C1 as stated fails: the single step "a\nb" gives a file of two
    lines, "1. a" and "b". *)
Lemma save_plan_to_file_lines_counterexample :
  (Tools.save_plan_to_file example_file ["a" +:+ nl +:+ "b"]
     "autogen_plan.txt" example_world).2 = Ok "/srv/lab8/logs/autogen_plan.txt" ∧
  lines <$> Pathlib.file_content
              (Tools.save_plan_to_file example_file ["a" +:+ nl +:+ "b"]
                 "autogen_plan.txt" example_world).1
              (parse "/srv/lab8/logs/autogen_plan.txt")
    = Some ["1. a"; "b"] ∧
  length ["1. a"; "b"] ≠ length ["a" +:+ nl +:+ "b"].
Proof. vm_compute. by repeat split. Qed.

(** C2. For the steps "Collect data" and "Train model" the whole content
    of the file written is "1. Collect data\n2. Train model\n". *)
Theorem save_plan_to_file_example this_file filename w w' s :
  Tools.save_plan_to_file this_file ["Collect data"; "Train model"] filename w
    = (w', Ok s) →
  (∃ path,
     plan_path this_file filename = Ok path ∧ s = str path ∧
     Pathlib.file_content w' path
       = Some ("1. Collect data" +:+ nl +:+ "2. Train model" +:+ nl)) ∧
  (well_formed this_file = true →
   Pathlib.file_content w' (parse s)
     = Some ("1. Collect data" +:+ nl +:+ "2. Train model" +:+ nl)).
Proof.
  intros Hsave. split.
  - apply save_plan_to_file_ok in Hsave as (path & fd & Hp & Hs & Hc & _).
    exists path. by rewrite Hc.
  - intros Hwf. by rewrite (save_plan_to_file_returns _ _ _ _ _ _ Hwf Hsave).
Qed.

Lemma save_plan_to_file_example_witness :
  (∃ path,
     plan_path example_file "autogen_plan.txt" = Ok path ∧
     "/srv/lab8/logs/autogen_plan.txt" = str path ∧
     Pathlib.file_content
       (Tools.save_plan_to_file example_file ["Collect data"; "Train model"]
          "autogen_plan.txt" example_world).1 path
       = Some ("1. Collect data" +:+ nl +:+ "2. Train model" +:+ nl)) ∧
  (well_formed example_file = true →
   Pathlib.file_content
     (Tools.save_plan_to_file example_file ["Collect data"; "Train model"]
        "autogen_plan.txt" example_world).1 (parse "/srv/lab8/logs/autogen_plan.txt")
     = Some ("1. Collect data" +:+ nl +:+ "2. Train model" +:+ nl)).
Proof.
  apply (save_plan_to_file_example example_file "autogen_plan.txt" example_world).
  vm_compute. reflexivity.
Defined.

(** C3. A second save under the same file name leaves in the file the
    text of the second plan and nothing of the first: the content is the
    one a single save of the second plan gives. *)
Theorem save_plan_to_file_overwrites this_file steps1 steps2 filename w w2 s2 :
  Tools.save_plan_to_file this_file steps2 filename
    (Tools.save_plan_to_file this_file steps1 filename w).1 = (w2, Ok s2) →
  ∃ path,
    plan_path this_file filename = Ok path ∧
    Pathlib.file_content w2 path = Some (Tools.plan_text steps2) ∧
    ∀ w' s', Tools.save_plan_to_file this_file steps2 filename w = (w', Ok s') →
      Pathlib.file_content w' path = Pathlib.file_content w2 path.
Proof.
  intros (path & fd & Hp & Hs & Hc & _)%save_plan_to_file_ok.
  exists path. split; [done|]. split; [done|].
  intros w' s' (path' & fd' & Hp' & _ & Hc' & _)%save_plan_to_file_ok.
  rewrite Hp in Hp'. injection Hp' as <-. by rewrite Hc, Hc'.
Qed.

Lemma save_plan_to_file_overwrites_witness :
  ∃ path,
    plan_path example_file "autogen_plan.txt" = Ok path ∧
    Pathlib.file_content
      (Tools.save_plan_to_file example_file ["Deploy"] "autogen_plan.txt"
         (Tools.save_plan_to_file example_file ["Collect data"; "Train model"]
            "autogen_plan.txt" example_world).1).1 path
      = Some (Tools.plan_text ["Deploy"]) ∧
    ∀ w' s',
      Tools.save_plan_to_file example_file ["Deploy"] "autogen_plan.txt" example_world
        = (w', Ok s') →
      Pathlib.file_content w' path
      = Pathlib.file_content
          (Tools.save_plan_to_file example_file ["Deploy"] "autogen_plan.txt"
             (Tools.save_plan_to_file example_file ["Collect data"; "Train model"]
                "autogen_plan.txt" example_world).1).1 path.
Proof.
  apply (save_plan_to_file_overwrites example_file ["Collect data"; "Train model"]
           ["Deploy"] "autogen_plan.txt" example_world _
           "/srv/lab8/logs/autogen_plan.txt").
  vm_compute. reflexivity.
Defined.

(** C10. Two calls with the same steps and file name, from any two
    worlds (whatever their environment variables and whatever the file
    held before), return the same path string, hand the same text to the
    write, and leave the same content in the file. *)
Theorem save_plan_to_file_deterministic this_file steps filename w1 w2 w1' w2' s1 s2 :
  Tools.save_plan_to_file this_file steps filename w1 = (w1', Ok s1) →
  Tools.save_plan_to_file this_file steps filename w2 = (w2', Ok s2) →
  s1 = s2 ∧
  ∃ path text,
    plan_path this_file filename = Ok path ∧
    Pathlib.file_content w1' path = Some text ∧
    Pathlib.file_content w2' path = Some text ∧
    (∃ fd, head (trace w1') = Some (SysWrite fd text)) ∧
    (∃ fd, head (trace w2') = Some (SysWrite fd text)).
Proof.
  intros (path & fd & Hp & Hs & Hc & Ht)%save_plan_to_file_ok.
  intros (path' & fd' & Hp' & Hs' & Hc' & Ht')%save_plan_to_file_ok.
  rewrite Hp in Hp'. injection Hp' as <-. split; [congruence|].
  exists path, (Tools.plan_text steps). repeat split; try done.
  - exists fd. by rewrite Ht.
  - exists fd'. by rewrite Ht'.
Qed.

Lemma save_plan_to_file_deterministic_witness :
  "/srv/lab8/logs/autogen_plan.txt" = "/srv/lab8/logs/autogen_plan.txt" ∧
  ∃ path text,
    plan_path example_file "autogen_plan.txt" = Ok path ∧
    Pathlib.file_content
      (Tools.save_plan_to_file example_file ["Deploy"] "autogen_plan.txt"
         example_world).1 path = Some text ∧
    Pathlib.file_content
      (Tools.save_plan_to_file example_file ["Deploy"] "autogen_plan.txt"
         example_world_used).1 path = Some text ∧
    (∃ fd, head (trace (Tools.save_plan_to_file example_file ["Deploy"]
                          "autogen_plan.txt" example_world).1)
           = Some (SysWrite fd text)) ∧
    (∃ fd, head (trace (Tools.save_plan_to_file example_file ["Deploy"]
                          "autogen_plan.txt" example_world_used).1)
           = Some (SysWrite fd text)).
Proof.
  apply (save_plan_to_file_deterministic example_file ["Deploy"] "autogen_plan.txt"
           example_world example_world_used).
  - vm_compute. reflexivity.
  - vm_compute. reflexivity.
Defined.

(** *** Errors *)

Lemma save_plan_to_file_calls this_file steps filename w :
  count_calls is_open_w (trace (Tools.save_plan_to_file this_file steps filename w).1)
    ≤ count_calls is_open_w (trace w) + 1 ∧
  count_calls is_write (trace (Tools.save_plan_to_file this_file steps filename w).1)
    ≤ count_calls is_write (trace w) + 1.
Proof.
  destruct (parents this_file 2) as [root|e] eqn:Hroot.
  - rewrite (save_plan_to_file_eq _ _ _ _ _ Hroot).
    destruct (Pathlib.mkdir _ _ _ w) as [w1 [[]|e]] eqn:Hm;
      apply mkdir_quiet in Hm as [_ _ _ Ho Hw]; [|cbn; lia].
    destruct (Pathlib.write_text _ _ w1) as [w2 [n|e]] eqn:Ht; cbn [fst].
    + apply write_text_ok in Ht as (_ & _ & _ & _ & fd & ->). cbn. lia.
    + apply write_text_raise in Ht as [->| ->]; cbn; lia.
  - rewrite (save_plan_to_file_no_root _ _ _ _ _ Hroot). cbn. lia.
Qed.

(** C7. [save_plan_to_file] handles no error and tries once: an
    exception raised by the [mkdir] of the logs directory or by
    [write_text] is the exception the call raises, with the world as the
    failing operation left it; and one call opens a file for writing at
    most once and writes at most once. *)
Theorem save_plan_to_file_raises this_file steps filename w root :
  parents this_file 2 = Ok root →
  (∀ w1 e,
     Pathlib.mkdir true true (joinpath root "logs") w = (w1, Raise e) →
     Tools.save_plan_to_file this_file steps filename w = (w1, Raise e)) ∧
  (∀ w1 w2 e,
     Pathlib.mkdir true true (joinpath root "logs") w = (w1, Ok ()) →
     Pathlib.write_text (joinpath (joinpath root "logs") filename)
       (Tools.plan_text steps) w1 = (w2, Raise e) →
     Tools.save_plan_to_file this_file steps filename w = (w2, Raise e)) ∧
  count_calls is_open_w (trace (Tools.save_plan_to_file this_file steps filename w).1)
    ≤ count_calls is_open_w (trace w) + 1 ∧
  count_calls is_write (trace (Tools.save_plan_to_file this_file steps filename w).1)
    ≤ count_calls is_write (trace w) + 1.
Proof.
  intros Hroot. split; [|split].
  - intros w1 e Hm. by rewrite (save_plan_to_file_eq _ _ _ _ _ Hroot), Hm.
  - intros w1 w2 e Hm Hw. by rewrite (save_plan_to_file_eq _ _ _ _ _ Hroot), Hm, Hw.
  - apply save_plan_to_file_calls.
Qed.

Lemma save_plan_to_file_raises_witness :
  (∀ w1 e,
     Pathlib.mkdir true true (joinpath (parse "/srv/lab8") "logs") example_world_locked
       = (w1, Raise e) →
     Tools.save_plan_to_file example_file ["Deploy"] "autogen_plan.txt"
       example_world_locked = (w1, Raise e)) ∧
  (∀ w1 w2 e,
     Pathlib.mkdir true true (joinpath (parse "/srv/lab8") "logs") example_world_locked
       = (w1, Ok ()) →
     Pathlib.write_text (joinpath (joinpath (parse "/srv/lab8") "logs") "autogen_plan.txt")
       (Tools.plan_text ["Deploy"]) w1 = (w2, Raise e) →
     Tools.save_plan_to_file example_file ["Deploy"] "autogen_plan.txt"
       example_world_locked = (w2, Raise e)) ∧
  count_calls is_open_w
    (trace (Tools.save_plan_to_file example_file ["Deploy"] "autogen_plan.txt"
              example_world_locked).1)
    ≤ count_calls is_open_w (trace example_world_locked) + 1 ∧
  count_calls is_write
    (trace (Tools.save_plan_to_file example_file ["Deploy"] "autogen_plan.txt"
              example_world_locked).1)
    ≤ count_calls is_write (trace example_world_locked) + 1.
Proof.
  apply (save_plan_to_file_raises example_file ["Deploy"] "autogen_plan.txt"
           example_world_locked (parse "/srv/lab8")).
  reflexivity.
Defined.

(** The two failures at work: a write refused in a locked logs
    directory, a directory creation refused under a sealed root. *)
Example save_plan_to_file_write_refused :
  (Tools.save_plan_to_file example_file ["Deploy"] "autogen_plan.txt"
     example_world_locked).2 = Raise PermissionError ∧
  (Pathlib.write_text (parse "/srv/lab8/logs/autogen_plan.txt") (Tools.plan_text ["Deploy"])
     (Pathlib.mkdir true true (parse "/srv/lab8/logs") example_world_locked).1).2
  = Raise PermissionError.
Proof. vm_compute. done. Qed.

Example save_plan_to_file_mkdir_refused :
  (Tools.save_plan_to_file example_file ["Deploy"] "autogen_plan.txt"
     example_world_sealed).2 = Raise PermissionError ∧
  (Pathlib.mkdir true true (parse "/srv/lab8/logs") example_world_sealed).2
  = Raise PermissionError.
Proof. vm_compute. done. Qed.

(** *** The logs directory *)



(** Two saves in a row from the example world both return. *)
Example save_plan_to_file_twice :
  (Tools.save_plan_to_file example_file ["Deploy"] "autogen_plan.txt" example_world).2
    = Ok "/srv/lab8/logs/autogen_plan.txt" ∧
  (Tools.save_plan_to_file example_file ["Deploy"] "autogen_plan.txt"
     (Tools.save_plan_to_file example_file ["Deploy"] "autogen_plan.txt"
        example_world).1).2
    = Ok "/srv/lab8/logs/autogen_plan.txt".
Proof. vm_compute. done. Qed.

(** *** Absolute file names *)

Lemma splitroot_absolute s : startswith "/" s = true → splitroot s ≠ "".
Proof.
  destruct s as [|c s]; [done|]. cbn [startswith].
  intros [Hc _]%andb_true_iff. apply bool_decide_eq_true in Hc as <-.
  unfold splitroot. rewrite char_at_0. cbn. by destruct (_ || _).
Qed.

(** An anchored right operand replaces the left one. *)
Lemma joinpath_absolute p key : startswith "/" key = true → joinpath p key = parse key.
Proof.
  intros Hk%splitroot_absolute. unfold joinpath.
  change (anchor (parse key)) with (splitroot key).
  by destruct (splitroot key).
Qed.

(** The file of an absolute name need not lie under the logs directory:
    /tmp/plan.txt lies under no directory called logs. *)
Lemma absolute_outside_logs root :
  is_relative_to (parse "/tmp/plan.txt") (joinpath root "logs") = false.
Proof.
  unfold is_relative_to. apply andb_false_iff. right.
  apply bool_decide_eq_false. intros H.
  change (segments (joinpath root "logs")) with (segments root ++ ["logs"]) in H.
  change (segments (parse "/tmp/plan.txt")) with ["tmp"; "plan.txt"] in H.
  destruct (segments root) as [|a [|b [|c l]]]; cbn in H; done.
Qed.

(** C9, as amended. For a file name that starts with a slash the logs
    directory plays no part: the file written is the one the name
    itself parses to, and the string returned is the normal form
    [str (parse filename)] of the name, which is the name itself when
    the name is in normal form. Such a file need not lie under the logs
    directory: /tmp/plan.txt lies under none. *)
Theorem save_plan_to_file_absolute this_file steps filename w w' s :
  startswith "/" filename = true →
  Tools.save_plan_to_file this_file steps filename w = (w', Ok s) →
  plan_path this_file filename = Ok (parse filename) ∧
  Pathlib.file_content w' (parse filename) = Some (Tools.plan_text steps) ∧
  s = str (parse filename) ∧
  (str (parse filename) = filename → s = filename) ∧
  (startswith "/" "/tmp/plan.txt" = true ∧
   ∀ logs, Tools.logs_dir this_file = Ok logs →
     is_relative_to (parse "/tmp/plan.txt") logs = false).
Proof.
  intros Habs (path & fd & Hp & Hs & Hc & _)%save_plan_to_file_ok.
  assert (path = parse filename) as ->.
  { unfold plan_path in Hp. destruct (Tools.logs_dir this_file); [|done].
    rewrite joinpath_absolute in Hp by done. congruence. }
  repeat split; try done; [congruence|].
  intros logs. unfold Tools.logs_dir.
  destruct (parents this_file 2) as [root|e]; [|done].
  intros [= <-]. apply absolute_outside_logs.
Qed.

Lemma save_plan_to_file_absolute_witness :
  plan_path example_file "/tmp/plan.txt" = Ok (parse "/tmp/plan.txt") ∧
  Pathlib.file_content
    (Tools.save_plan_to_file example_file ["Deploy"] "/tmp/plan.txt" example_world).1
    (parse "/tmp/plan.txt") = Some (Tools.plan_text ["Deploy"]) ∧
  "/tmp/plan.txt" = str (parse "/tmp/plan.txt") ∧
  (str (parse "/tmp/plan.txt") = "/tmp/plan.txt" → "/tmp/plan.txt" = "/tmp/plan.txt") ∧
  (startswith "/" "/tmp/plan.txt" = true ∧
   ∀ logs, Tools.logs_dir example_file = Ok logs →
     is_relative_to (parse "/tmp/plan.txt") logs = false).
Proof.
  apply (save_plan_to_file_absolute example_file ["Deploy"] "/tmp/plan.txt" example_world).
  - reflexivity.
  - vm_compute. reflexivity.
Defined.

(** C9 as stated fails: for the absolute name "/tmp//plan.txt" the call
    returns "/tmp/plan.txt", not the name it was given. *)
Lemma save_plan_to_file_absolute_counterexample :
  startswith "/" "/tmp//plan.txt" = true ∧
  (Tools.save_plan_to_file example_file ["Deploy"] "/tmp//plan.txt" example_world).2
    = Ok "/tmp/plan.txt" ∧
  "/tmp/plan.txt" ≠ "/tmp//plan.txt".
Proof. vm_compute. by repeat split. Qed.

(** ** [get_llm_config] *)

(** C4. The dictionary returned binds "config_list" to a list of one
    entry, whose model is "mistral:latest", whose api_key is "NA" and
    whose base_url is the value of OLLAMA_BASE_URL when the variable is
    set and "http://localhost:11434/v1" when it is not. *)
Theorem get_llm_config_entry w :
  ∃ entry,
    Config.get_llm_config w !! "config_list" = Some [entry] ∧
    entry !! "model" = Some "mistral:latest" ∧
    entry !! "api_key" = Some "NA" ∧
    entry !! "base_url" =
      Some match environ w !! "OLLAMA_BASE_URL" with
           | Some v => v
           | None => "http://localhost:11434/v1"
           end ∧
    dom entry = {[ "model"; "api_key"; "base_url" ]} ∧
    dom (Config.get_llm_config w) = {[ "config_list" ]}.
Proof.
  eexists. split; [apply lookup_singleton_eq|].
  split; [by simplify_map_eq|]. split; [by simplify_map_eq|].
  split; [by simplify_map_eq|]. split.
  - rewrite !dom_insert_L, dom_empty_L. set_solver.
  - unfold Config.get_llm_config. by rewrite dom_singleton_L.
Qed.

Example get_llm_config_unset :
  Config.getenv example_world "OLLAMA_BASE_URL" "http://localhost:11434/v1"
  = "http://localhost:11434/v1".
Proof. reflexivity. Qed.

Example get_llm_config_set :
  Config.getenv example_world_used "OLLAMA_BASE_URL" "http://localhost:11434/v1"
  = "http://example:9999/v1".
Proof. vm_compute. reflexivity. Qed.

(** ** The conversation *)

Section ConversationFacts.

Variable chat : GroupChat.
Variable next_speaker : list Message → Role.
Variable reply : Role → list Message → string.
Variable judged_complete : list Message → bool.

Local Abbreviation append_turn := (append_turn chat judged_complete).
Local Abbreviation take_turn := (take_turn chat next_speaker reply judged_complete).
Local Abbreviation initiate_chat :=
  (initiate_chat chat next_speaker reply judged_complete).

Lemma bounded_new_session : bounded chat (new_session chat).
Proof.
  unfold bounded, new_session. cbn. repeat split; [lia| |lia].
  intros H%bool_decide_eq_false. lia.
Qed.

Lemma bounded_append_turn m s : bounded chat s → bounded chat (append_turn m s).
Proof.
  intros Hb. unfold Agent.append_turn.
  destruct (terminated s) eqn:Ht; [exact Hb|].
  destruct Hb as (Hr & Hopen & Hlen).
  specialize (Hopen Ht). unfold bounded. cbn. repeat split.
  - lia.
  - intros [_ H%bool_decide_eq_false]%orb_false_iff. lia.
  - rewrite length_app. cbn. lia.
Qed.

Lemma bounded_take_turn s : bounded chat s → bounded chat (take_turn s).
Proof. apply bounded_append_turn. Qed.

Lemma bounded_initiate_chat goal turns : bounded chat (initiate_chat goal turns).
Proof.
  unfold Agent.initiate_chat. induction turns as [|n IH].
  - apply bounded_append_turn, bounded_new_session.
  - rewrite Nat.iter_succ. by apply bounded_take_turn.
Qed.

(** A terminated session takes no further turn. *)
Lemma take_turn_terminated s : terminated s = true → take_turn s = s.
Proof. intros Ht. unfold Agent.take_turn, Agent.append_turn. by rewrite Ht. Qed.

Lemma take_turn_open s :
  terminated s = false → round (take_turn s) = S (round s).
Proof. intros Ht. unfold Agent.take_turn, Agent.append_turn. by rewrite Ht. Qed.

Lemma iter_take_turn_open s n :
  terminated (Nat.iter n take_turn s) = false →
  round (Nat.iter n take_turn s) = round s + n.
Proof.
  induction n as [|n IH]; [cbn; lia|]. rewrite Nat.iter_succ. intros Ht.
  destruct (terminated (Nat.iter n take_turn s)) eqn:Hn.
  - rewrite take_turn_terminated in Ht by done. congruence.
  - rewrite take_turn_open by done. rewrite IH by done. lia.
Qed.

Lemma iter_take_turn_terminated s n :
  terminated s = true → Nat.iter n take_turn s = s.
Proof.
  intros Ht. induction n as [|n IH]; [done|].
  rewrite Nat.iter_succ, IH. by apply take_turn_terminated.
Qed.

Lemma append_turn_open m s :
  terminated (append_turn m s) = false →
  terminated s = false ∧ round (append_turn m s) = S (round s).
Proof.
  unfold Agent.append_turn. destruct (terminated s) eqn:Ht; [congruence|done].
Qed.

(** Every conversation completes: it has terminated once the goal and
    the turns scheduled after it are as many as the maximum allows
    rounds. *)
Lemma initiate_chat_completes goal turns :
  max_round chat ≤ S turns → terminated (initiate_chat goal turns) = true.
Proof.
  intros Hmax. destruct (terminated (initiate_chat goal turns)) eqn:Ht; [done|].
  pose proof (bounded_initiate_chat goal turns) as (_ & Hopen & _).
  specialize (Hopen Ht). unfold Agent.initiate_chat in *.
  rewrite iter_take_turn_open in Hopen by done.
  destruct (terminated (append_turn (mkMessage user goal) (new_session chat)))
    eqn:Hstart.
  - rewrite iter_take_turn_terminated in Ht by done. congruence.
  - apply append_turn_open in Hstart as [_ Hround]. rewrite Hround in Hopen.
    cbn in Hopen. lia.
Qed.

(** *** Planner before executor *)

Lemma planner_first_seen l : planner_first true l = true.
Proof. induction l as [|[[] c] l IH]; cbn; auto. Qed.

Lemma planner_first_snoc seen l m :
  planner_first seen (l ++ [m]) =
  planner_first seen l &&
  match sender m with
  | executor => seen || planner_spoke l
  | _ => true
  end.
Proof.
  revert seen. induction l as [|[[] c] l IH]; intros seen.
  - cbn. destruct (sender m), seen; done.
  - cbn. apply IH.
  - cbn. rewrite IH, planner_first_seen. by destruct (sender m), seen.
  - cbn. rewrite IH. by destruct (sender m), seen.
Qed.

Hypothesis policy : ∀ l, next_speaker l = executor → planner_spoke l = true.

Lemma planner_first_append_user goal s :
  planner_first false (log s) = true →
  planner_first false (log (append_turn (mkMessage user goal) s)) = true.
Proof.
  intros Hs. unfold Agent.append_turn. destruct (terminated s); [done|].
  cbn. by rewrite planner_first_snoc, Hs.
Qed.

Lemma planner_first_take_turn s :
  planner_first false (log s) = true →
  planner_first false (log (take_turn s)) = true.
Proof.
  intros Hs. unfold Agent.take_turn, Agent.append_turn.
  destruct (terminated s); [done|].
  cbn. rewrite planner_first_snoc, Hs. cbn.
  destruct (next_speaker (log s)) eqn:Hn; [done..|]. by apply policy.
Qed.

Lemma planner_first_initiate_chat goal turns :
  planner_first false (messages chat) = true →
  planner_first false (log (initiate_chat goal turns)) = true.
Proof.
  intros Hm. unfold Agent.initiate_chat.
  induction turns as [|n IH].
  - by apply planner_first_append_user.
  - rewrite Nat.iter_succ. by apply planner_first_take_turn.
Qed.

End ConversationFacts.

Lemma main_eq this_file next_speaker reply judged_complete w goal turns :
  main this_file next_speaker reply judged_complete w goal turns =
  initiate_chat (groupchat (create_planner_executor_agents this_file w).2)
    next_speaker reply judged_complete goal turns.
Proof. reflexivity. Qed.

(** C5. The group chat is built with a maximum of 10 rounds, and
    whatever the goal, the speakers chosen, their replies and the
    supervisor's judgement, the round counter of the conversation never
    passes 10 and no more than 10 messages are in its log. *)
Theorem conversation_round_bound this_file w next_speaker reply judged_complete
    (goal : string) (turns : nat) :
  max_round (groupchat (create_planner_executor_agents this_file w).2) = 10 ∧
  round (main this_file next_speaker reply judged_complete w goal turns) ≤ 10 ∧
  length (log (main this_file next_speaker reply judged_complete w goal turns)) ≤ 10.
Proof.
  split; [done|].
  pose proof (bounded_initiate_chat
                (groupchat (create_planner_executor_agents this_file w).2)
                next_speaker reply judged_complete goal turns) as (Hr & _ & Hl).
  rewrite main_eq. split; [exact Hr|]. rewrite Hl. exact Hr.
Qed.

(** Every conversation is complete after nine turns. *)
Lemma conversation_completes this_file w next_speaker reply judged_complete
    (goal : string) (turns : nat) :
  9 ≤ turns →
  terminated (main this_file next_speaker reply judged_complete w goal turns) = true.
Proof.
  intros Hturns. rewrite main_eq. apply initiate_chat_completes.
  cbn. lia.
Qed.

(** C6, as amended. When the supervisor never picks the executor before
    a planner message is in the log, no executor message comes before
    the first planner message, in every state of the conversation and so
    in every completed one. *)
Theorem conversation_planner_first this_file w next_speaker reply judged_complete
    (goal : string) (turns : nat) :
  (∀ l, next_speaker l = executor → planner_spoke l = true) →
  planner_first false
    (log (main this_file next_speaker reply judged_complete w goal turns)) = true.
Proof. intros Hpolicy. rewrite main_eq. by apply planner_first_initiate_chat. Qed.

Lemma conversation_planner_first_witness :
  planner_first false
    (log (main example_file planner_then_executor (λ _ _, "notes") (λ _, false)
            example_world "Ship the model" 9)) = true.
Proof.
  apply (conversation_planner_first example_file example_world planner_then_executor).
  intros l. unfold planner_then_executor. by destruct (planner_spoke l).
Defined.

(** C6 as stated fails: with a supervisor that gives every turn to the
    executor the conversation completes at the round limit with executor
    messages in its log and none of the planner. *)
Lemma conversation_planner_first_counterexample :
  terminated
    (main example_file (λ _, executor) (λ _ _, "notes") (λ _, false)
       example_world "Ship the model" 9) = true ∧
  planner_first false
    (log (main example_file (λ _, executor) (λ _ _, "notes") (λ _, false)
            example_world "Ship the model" 9)) = false.
Proof. vm_compute. done. Qed.

(** * Further properties *)

(** ** The text of a plan, continued *)

Lemma join_empty_app (l1 l2 : list string) :
  join "" (l1 ++ l2) = join "" l1 +:+ join "" l2.
Proof.
  induction l1 as [|x l1 IH]; [done|].
  change ((x :: l1) ++ l2) with (x :: (l1 ++ l2)).
  by rewrite !join_empty_cons, IH, app_assoc_str.
Qed.

Lemma enumerate_from_app {A : Type} (n : nat) (l1 l2 : list A) :
  enumerate_from n (l1 ++ l2)
  = enumerate_from n l1 ++ enumerate_from (n + length l1) l2.
Proof.
  revert n. induction l1 as [|x l1 IH]; intros n; cbn [enumerate_from app length].
  - by rewrite Nat.add_0_r.
  - rewrite IH. by replace (S n + length l1) with (n + S (length l1)) by lia.
Qed.

(** X1. Extending a plan keeps the text of the shorter plan byte for
    byte and continues the numbering: the text of [steps1 ++ steps2] is
    the text of [steps1] followed by the lines of [steps2] numbered from
    [length steps1 + 1]. *)
Theorem plan_text_app (steps1 steps2 : list string) :
  Tools.plan_text (steps1 ++ steps2)
  = Tools.plan_text steps1 +:+ plan_text_from (length steps1) steps2.
Proof.
  unfold Tools.plan_text, plan_text_from, enumerate.
  by rewrite enumerate_from_app, map_app, join_empty_app.
Qed.

Lemma numbered_lines_inj (n : nat) (steps1 steps2 : list string) :
  map (λ '(i, step), numbered i step) (enumerate_from n steps1)
  = map (λ '(i, step), numbered i step) (enumerate_from n steps2) →
  steps1 = steps2.
Proof.
  revert n steps2. induction steps1 as [|x l1 IH]; intros n [|y l2]; try done.
  cbn [enumerate_from map]. intros [= Hxy Hl]. f_equal.
  - unfold numbered in Hxy. by do 2 apply (inj (String.app _)) in Hxy.
  - by eapply IH.
Qed.

(** X2. The text written determines the plan, as long as no step holds
    a line feed: two such plans with the same text are the same plan. *)
Theorem plan_text_inj (steps1 steps2 : list string) :
  single_line steps1 = true → single_line steps2 = true →
  Tools.plan_text steps1 = Tools.plan_text steps2 → steps1 = steps2.
Proof.
  intros H1%single_line_Forall H2%single_line_Forall Htext.
  apply (f_equal lines) in Htext.
  rewrite (lines_plan_text _ H1), (lines_plan_text _ H2) in Htext.
  by eapply numbered_lines_inj.
Qed.

Lemma plan_text_inj_witness : ["Collect data"; "Train model"] = ["Collect data"; "Train model"].
Proof.
  apply (plan_text_inj ["Collect data"; "Train model"] ["Collect data"; "Train model"]);
    reflexivity.
Defined.

(** With a line feed in a step the text no longer tells the plans
    apart. *)
Example plan_text_collision :
  Tools.plan_text ["a" +:+ nl +:+ "2. b"] = Tools.plan_text ["a"; "b"].
Proof. reflexivity. Qed.

(** ** File names *)

Lemma splitroot_relative s : startswith "/" s = false → splitroot s = "".
Proof.
  destruct s as [|c s]; [done|]. cbn [startswith]. rewrite andb_true_r.
  intros Hc%bool_decide_eq_false. unfold splitroot. rewrite char_at_0.
  rewrite bool_decide_eq_false_2; [done|]. intros [= ->]. done.
Qed.

Lemma joinpath_relative p key :
  startswith "/" key = false →
  joinpath p key = mkPath (anchor p) (segments p ++ segments (parse key)).
Proof.
  intros Hk%splitroot_relative. unfold joinpath.
  change (anchor (parse key)) with (splitroot key). by rewrite Hk.
Qed.

(** A name made of well-formed components joined by slashes parses to
    these components. *)
Lemma parse_join segs :
  segs ≠ [] → forallb segment_ok segs = true → parse (join "/" segs) = mkPath "" segs.
Proof.
  intros Hne Hok. trans (parse (str (mkPath "" segs))).
  - unfold str. cbn [anchor segments]. by destruct segs.
  - apply parse_str. unfold well_formed. cbn [anchor segments]. by rewrite Hok.
Qed.

Lemma startswith_join segs :
  forallb segment_ok segs = true → startswith "/" (join "/" segs) = false.
Proof.
  destruct segs as [|x l]; [done|]. cbn [forallb].
  intros [Hx _]%andb_true_iff. apply segment_ok_head in Hx as (c & x' & -> & Hc).
  destruct (join_head c x' l) as [r ->]. cbn [startswith].
  rewrite bool_decide_eq_false_2; [done|]. intros <-. by apply Hc.
Qed.

Lemma joinpath_join p segs :
  segs ≠ [] → forallb segment_ok segs = true →
  joinpath p (join "/" segs) = mkPath (anchor p) (segments p ++ segs).
Proof.
  intros Hne Hok. rewrite joinpath_relative by by apply startswith_join.
  by rewrite parse_join.
Qed.

Lemma joinpath_segment p name :
  segment_ok name = true → joinpath p name = mkPath (anchor p) (segments p ++ [name]).
Proof.
  intros Hname. apply (joinpath_join p [name]); [done|]. cbn. by rewrite Hname.
Qed.

Lemma joinpath_logs root : joinpath root "logs" = mkPath (anchor root) (segments root ++ ["logs"]).
Proof. reflexivity. Qed.

Lemma take_app_length_l {A : Type} (l1 l2 : list A) : take (length l1) (l1 ++ l2) = l1.
Proof. induction l1 as [|x l1 IH]; cbn; [by destruct l2|by rewrite IH]. Qed.

(** X3. A file name that does not start with a slash is joined below
    the logs directory: the path written has the anchor of the logs
    directory and its components followed by those of the name, so it
    lies (as a path, before any ".." is followed) under the logs
    directory. *)
Theorem save_plan_to_file_relative this_file filename logs path :
  startswith "/" filename = false →
  Tools.logs_dir this_file = Ok logs →
  plan_path this_file filename = Ok path →
  anchor path = anchor logs ∧
  segments path = segments logs ++ segments (parse filename) ∧
  is_relative_to path logs = true.
Proof.
  intros Hrel Hlogs. unfold plan_path. rewrite Hlogs. intros [= <-].
  rewrite joinpath_relative by done. cbn [anchor segments].
  repeat split. unfold is_relative_to. cbn [anchor segments].
  rewrite take_app_length_l. by rewrite !bool_decide_eq_true_2.
Qed.

Lemma save_plan_to_file_relative_witness :
  anchor (parse "/srv/lab8/logs/runs/plan.txt") = anchor (parse "/srv/lab8/logs") ∧
  segments (parse "/srv/lab8/logs/runs/plan.txt")
    = segments (parse "/srv/lab8/logs") ++ segments (parse "runs/plan.txt") ∧
  is_relative_to (parse "/srv/lab8/logs/runs/plan.txt") (parse "/srv/lab8/logs") = true.
Proof.
  apply (save_plan_to_file_relative example_file "runs/plan.txt"); reflexivity.
Defined.

(** X4. The string a call returns names the file it wrote: parsed
    again it is the path written, and the file there holds the text of
    the plan. *)
Theorem save_plan_to_file_round_trip this_file steps filename w w' s :
  well_formed this_file = true →
  Tools.save_plan_to_file this_file steps filename w = (w', Ok s) →
  plan_path this_file filename = Ok (parse s) ∧
  str (parse s) = s ∧
  Pathlib.file_content w' (parse s) = Some (Tools.plan_text steps).
Proof.
  intros Hwf (path & fd & Hp & -> & Hc & _)%save_plan_to_file_ok.
  assert (well_formed path = true) as Hpath.
  { unfold plan_path, Tools.logs_dir in Hp.
    destruct (parents this_file 2) as [root|e] eqn:Hroot; [|done].
    injection Hp as <-.
    by eapply joinpath_well_formed, joinpath_well_formed, parents_well_formed. }
  by rewrite parse_str.
Qed.

Lemma save_plan_to_file_round_trip_witness :
  plan_path example_file "runs/../plan.txt"
    = Ok (parse "/srv/lab8/logs/runs/../plan.txt") ∧
  str (parse "/srv/lab8/logs/runs/../plan.txt") = "/srv/lab8/logs/runs/../plan.txt" ∧
  Pathlib.file_content
    (Tools.save_plan_to_file example_file ["Deploy"] "runs/../plan.txt"
       (Pathlib.mkdir true true (parse "/srv/lab8/logs/runs") example_world).1).1
    (parse "/srv/lab8/logs/runs/../plan.txt") = Some (Tools.plan_text ["Deploy"]).
Proof.
  apply (save_plan_to_file_round_trip example_file ["Deploy"] "runs/../plan.txt"
           (Pathlib.mkdir true true (parse "/srv/lab8/logs/runs") example_world).1).
  - reflexivity.
  - vm_compute. reflexivity.
Defined.

(** ** Resolution of the path written *)

Lemma namei_app w cur l1 l2 :
  OS.namei w cur (l1 ++ l2) =
  match OS.namei w cur l1 with
  | Ok k => OS.namei w k l2
  | Raise e => Raise e
  end.
Proof.
  revert cur. induction l1 as [|s l1 IH]; intros cur; [done|].
  cbn [app OS.namei]. destruct (OS.node_at w cur) as [[|d]|]; auto.
  by destruct (_ <? _).
Qed.

(** Stepping into a directory and back out with ".." leads nowhere. *)
Lemma namei_dotdot w cur d name k :
  d ≠ ".." → name ≠ ".." →
  OS.namei w cur [d; ".."; name] = Ok k → OS.namei w cur [name] = Ok k.
Proof.
  intros Hd Hname. cbn [OS.namei].
  destruct (OS.node_at w cur) as [[|?]|] eqn:Hcur; [|done..].
  destruct (OS.NAME_MAX <? String.length d); [done|].
  rewrite (decide_False (P := d = "..")) by done.
  destruct (OS.node_at w (cur ++ [d])) as [[|?]|]; [|done..].
  change (OS.NAME_MAX <? String.length "..") with false. cbv iota.
  rewrite (decide_True (P := ".." = "..")) by done.
  rewrite removelast_last, Hcur. done.
Qed.

Lemma file_content_resolve w p q k text :
  OS.resolve w p = Ok k → OS.resolve w q = Ok k →
  Pathlib.file_content w p = Some text → Pathlib.file_content w q = Some text.
Proof. unfold Pathlib.file_content. by intros -> ->. Qed.

(** After a call that returns, the logs directory is a directory. *)
Lemma save_plan_to_file_ok_logs this_file root steps filename w w' s :
  parents this_file 2 = Ok root →
  Tools.save_plan_to_file this_file steps filename w = (w', Ok s) →
  OS.stat_isdir w' (joinpath root "logs") = Some true.
Proof.
  intros Hroot. rewrite (save_plan_to_file_eq _ _ _ _ _ Hroot).
  destruct (Pathlib.mkdir _ _ _ w) as [w1 [[]|e]] eqn:Hm; [|done].
  apply mkdir_ok in Hm.
  destruct (Pathlib.write_text _ _ w1) as [w2 [n|e]] eqn:Hw; [|done].
  intros [= <- _]. apply write_text_kept in Hw. by eapply stat_isdir_kept.
Qed.

Lemma save_plan_to_file_accepted this_file root steps filename w w' s :
  parents this_file 2 = Ok root →
  Tools.save_plan_to_file this_file steps filename w = (w', Ok s) →
  accepted (joinpath (joinpath root "logs") filename) = true.
Proof.
  intros Hroot. rewrite (save_plan_to_file_eq _ _ _ _ _ Hroot).
  destruct (Pathlib.mkdir _ _ _ w) as [w1 [[]|e]] eqn:Hm; [|done].
  destruct (Pathlib.write_text _ _ w1) as [w2 [n|e]] eqn:Hw; [|done].
  intros _. by eapply write_text_accepted.
Qed.

Lemma file_not_directory w p text :
  Pathlib.file_content w p = Some text → OS.stat_isdir w p ≠ Some true.
Proof.
  unfold Pathlib.file_content.
  intros Hc (_ & k & Hl%lookup_resolve & Hn)%stat_isdir_true.
  by rewrite Hl, Hn in Hc.
Qed.

(** X6. A file name that starts with "../" leaves the logs directory:
    the call writes the file of that name in the directory above, the
    repository root. *)
Theorem save_plan_to_file_dotdot this_file root steps name w w' s :
  parents this_file 2 = Ok root →
  segment_ok name = true → name ≠ ".." →
  Tools.save_plan_to_file this_file steps ("../" +:+ name) w = (w', Ok s) →
  Pathlib.file_content w' (joinpath root name) = Some (Tools.plan_text steps) ∧
  is_relative_to (joinpath root name) (joinpath root "logs") = false.
Proof.
  intros Hroot Hname Hne Hsave.
  pose proof (save_plan_to_file_ok_logs _ _ _ _ _ _ _ Hroot Hsave) as Hlogs.
  apply save_plan_to_file_ok in Hsave as (path & fd & Hp & _ & Hc & _).
  rewrite (plan_path_root _ _ _ Hroot) in Hp. injection Hp as <-.
  assert (Pathlib.file_content w' (joinpath root name) = Some (Tools.plan_text steps))
    as Hfile; [|split; [done|]].
  change ("../" +:+ name) with (join "/" [".."; name]) in Hc.
  rewrite joinpath_join in Hc by (by cbn; rewrite ?Hname).
  rewrite (joinpath_segment root name) by done.
  - rewrite joinpath_logs in Hc. cbn [anchor segments] in Hc.
    unfold Pathlib.file_content in Hc.
    destruct (OS.resolve w' _) as [k|] eqn:Hr; [|done].
    eapply file_content_resolve; [exact Hr| |by unfold Pathlib.file_content; rewrite Hr].
    revert Hr. unfold OS.resolve. cbn [anchor segments].
    rewrite <-(assoc_L (++)). cbn [app]. rewrite !namei_app.
    destruct (OS.namei w' _ (segments root)) as [kr|]; [|done].
    by apply namei_dotdot.
  - apply file_not_directory in Hfile.
    rewrite (joinpath_segment root name) in * by done. rewrite joinpath_logs in *.
    unfold is_relative_to. cbn [anchor segments]. apply andb_false_iff. right.
    apply bool_decide_eq_false. intros Heq.
    rewrite take_ge in Heq by (rewrite !length_app; cbn; lia).
    apply app_inj_tail in Heq as [_ ->]. done.
Qed.

Lemma save_plan_to_file_dotdot_witness :
  Pathlib.file_content
    (Tools.save_plan_to_file example_file ["Deploy"] ("../" +:+ "plan.txt")
       example_world).1
    (joinpath (parse "/srv/lab8") "plan.txt") = Some (Tools.plan_text ["Deploy"]) ∧
  is_relative_to (joinpath (parse "/srv/lab8") "plan.txt")
    (joinpath (parse "/srv/lab8") "logs") = false.
Proof.
  apply (save_plan_to_file_dotdot example_file (parse "/srv/lab8") ["Deploy"] "plan.txt"
           example_world _ "/srv/lab8/logs/../plan.txt").
  - reflexivity.
  - reflexivity.
  - done.
  - vm_compute. reflexivity.
Defined.



(** X8. An empty file name, or one that is only "." components, names
    the logs directory itself: once that directory is made the write
    raises [IsADirectoryError], and no file is written. *)
Theorem save_plan_to_file_empty_name this_file logs steps filename w w1 :
  Tools.logs_dir this_file = Ok logs →
  parse filename = mkPath "" [] →
  Pathlib.mkdir true true logs w = (w1, Ok ()) →
  Tools.save_plan_to_file this_file steps filename w
  = (emit (SysOpenW logs) w1, Raise IsADirectoryError).
Proof.
  unfold Tools.logs_dir.
  destruct (parents this_file 2) as [root|e] eqn:Hroot; [|done].
  intros [= <-] Hname Hm.
  rewrite (save_plan_to_file_eq _ _ _ _ _ Hroot), Hm.
  assert (joinpath (joinpath root "logs") filename = joinpath root "logs") as ->.
  { unfold joinpath at 1. rewrite Hname. cbn [anchor segments].
    by rewrite app_nil_r. }
  apply mkdir_ok, stat_isdir_true in Hm as (Hnul & k & Hl & Hn).
  unfold Pathlib.write_text, bind, OS.open_w.
  by rewrite Hnul, lookup_emit, Hl, node_at_emit, Hn.
Qed.

Lemma save_plan_to_file_empty_name_witness :
  Tools.save_plan_to_file example_file ["Deploy"] "" example_world
  = (emit (SysOpenW (parse "/srv/lab8/logs"))
       (Pathlib.mkdir true true (parse "/srv/lab8/logs") example_world).1,
     Raise IsADirectoryError).
Proof.
  apply (save_plan_to_file_empty_name example_file (parse "/srv/lab8/logs")).
  - reflexivity.
  - reflexivity.
  - vm_compute. reflexivity.
Defined.

(** ** What a call leaves as it was *)

Lemma nodes_kept_refl w : nodes_kept w w.
Proof. by intros k n. Qed.

Lemma nodes_kept_trans w1 w2 w3 : nodes_kept w1 w2 → nodes_kept w2 w3 → nodes_kept w1 w3.
Proof. intros H1 H2 k n Hk. by apply H2, H1. Qed.

Lemma nodes_kept_emit c w : nodes_kept w (emit c w).
Proof. intros k n. by rewrite node_at_emit. Qed.

Lemma nodes_kept_set_node k n w :
  OS.node_at w k = None → nodes_kept w (set_node k n w).
Proof.
  intros Hk k' n' Hk'. rewrite node_at_set_node_ne; [done|]. congruence.
Qed.

Lemma OS_mkdir_nodes_kept p w w' r : OS.mkdir p w = (w', r) → nodes_kept w w'.
Proof.
  unfold OS.mkdir.
  destruct (OS.embedded_null p); [intros [= <- <-]; apply nodes_kept_refl|].
  rewrite lookup_emit.
  destruct (OS.lookup w p) as [k|e]; [|intros [= <- <-]; apply nodes_kept_emit].
  rewrite node_at_emit. destruct (OS.node_at w k) as [n|] eqn:Hn;
    [intros [= <- <-]; apply nodes_kept_emit|].
  case_decide; intros [= <- <-]; [apply nodes_kept_emit|].
  eapply nodes_kept_trans; [apply (nodes_kept_emit (SysMkdir p))|].
  apply nodes_kept_set_node. by rewrite node_at_emit.
Qed.

Lemma except_OSError_nodes_kept exist_ok p e w w' r :
  Pathlib.except_OSError exist_ok p e w = (w', r) → nodes_kept w w'.
Proof.
  unfold Pathlib.except_OSError. destruct (is_OSError e).
  - destruct exist_ok; cbn [negb]; [|intros [= <- <-]; apply nodes_kept_refl].
    unfold bind. destruct (Pathlib.is_dir p w) as [w1 [d|e']] eqn:Hd;
      apply is_dir_world in Hd as [->| ->];
      try destruct (negb d); intros [= <- <-];
      auto using nodes_kept_refl, nodes_kept_emit.
  - intros [= <- <-]. apply nodes_kept_refl.
Qed.

Lemma mkdir_leaf_nodes_kept exist_ok p w w' r :
  Pathlib.mkdir_leaf exist_ok p w = (w', r) → nodes_kept w w'.
Proof.
  unfold Pathlib.mkdir_leaf, try_except.
  destruct (OS.mkdir p w) as [w1 [[]|e]] eqn:Hm.
  - intros [= <- <-]. by eapply OS_mkdir_nodes_kept.
  - intros He. eapply nodes_kept_trans; [by eapply OS_mkdir_nodes_kept|].
    destruct e; try (by eapply except_OSError_nodes_kept).
    injection He as <- <-. apply nodes_kept_refl.
Qed.

Lemma mkdir_parents_nodes_kept exist_ok a rsegs w w' r :
  Pathlib.mkdir_parents exist_ok a rsegs w = (w', r) → nodes_kept w w'.
Proof.
  revert exist_ok w w' r.
  induction rsegs as [|s up IH]; intros exist_ok w w' r;
    rewrite mkdir_parents_eq; cbn zeta; unfold try_except;
    destruct (OS.mkdir _ w) as [w1 [[]|e]] eqn:Hm;
    try (intros [= <- <-]; by eapply OS_mkdir_nodes_kept);
    intros He; (eapply nodes_kept_trans; [by eapply OS_mkdir_nodes_kept|]);
    destruct e; try (by eapply except_OSError_nodes_kept).
  - injection He as <- <-. apply nodes_kept_refl.
  - unfold bind in He.
    destruct (Pathlib.mkdir_parents true a up w1) as [w2 [[]|e2]] eqn:Hup.
    + eapply nodes_kept_trans; [by eapply IH|]. by eapply mkdir_leaf_nodes_kept.
    + injection He as <- <-. by eapply IH.
Qed.

(** [Path.mkdir] removes and replaces nothing. *)
Lemma mkdir_nodes_kept parents exist_ok p w w' r :
  Pathlib.mkdir parents exist_ok p w = (w', r) → nodes_kept w w'.
Proof.
  unfold Pathlib.mkdir. destruct parents.
  - apply mkdir_parents_nodes_kept.
  - apply mkdir_leaf_nodes_kept.
Qed.

(** A [write_text] that returns binds one name, the one its path
    resolves to, to a file holding the data. *)
Lemma write_text_nodes p data w w' n :
  Pathlib.write_text p data w = (w', Ok n) →
  ∃ k, OS.resolve w p = Ok k ∧ k ≠ [] ∧ OS.node_at w k ≠ Some Dir ∧
       nodes w' = <[k := File data]> (nodes w).
Proof.
  unfold Pathlib.write_text, bind, OS.open_w.
  destruct (OS.embedded_null p); [done|]. rewrite lookup_emit.
  destruct (OS.lookup w p) as [k|e] eqn:Hl; [|done]. apply lookup_resolve in Hl.
  rewrite node_at_emit.
  destruct (OS.node_at w k) as [[|d]|] eqn:Hn; [done| |];
    (case_decide; [done|]);
    (assert (k ≠ []) as Hk by (intros ->; done));
    (erewrite write_file; [|by apply node_at_set_node_eq]);
    intros [= <- _]; exists k; repeat split; try done;
    try (by rewrite Hn); cbn; by rewrite insert_insert_eq.
Qed.

Lemma node_at_insert_ne w w' k k' n :
  nodes w' = <[k := n]> (nodes w) → k ≠ k' → OS.node_at w' k' = OS.node_at w k'.
Proof.
  intros Hn Hk. destruct k'; [done|]. cbn. rewrite Hn. by apply lookup_insert_ne.
Qed.

(** X9. A call, whether it returns or raises, leaves the environment
    variables, the working directory and the permissions as they were,
    and removes or changes no node of the file system but one: a
    regular file at the path it writes. *)
Theorem save_plan_to_file_frame this_file steps filename w :
  environ (Tools.save_plan_to_file this_file steps filename w).1 = environ w ∧
  cwd (Tools.save_plan_to_file this_file steps filename w).1 = cwd w ∧
  readonly (Tools.save_plan_to_file this_file steps filename w).1 = readonly w ∧
  ∀ k n, OS.node_at w k = Some n →
    OS.node_at (Tools.save_plan_to_file this_file steps filename w).1 k = Some n ∨
    ∃ d path,
      n = File d ∧ plan_path this_file filename = Ok path ∧
      OS.resolve (Tools.save_plan_to_file this_file steps filename w).1 path = Ok k.
Proof.
  destruct (parents this_file 2) as [root|e] eqn:Hroot;
    [|rewrite (save_plan_to_file_no_root _ _ _ _ _ Hroot); cbn [fst];
      repeat split; auto].
  rewrite (save_plan_to_file_eq _ _ _ _ _ Hroot), (plan_path_root _ _ _ Hroot).
  destruct (Pathlib.mkdir _ _ _ w) as [w1 [[]|e]] eqn:Hm;
    pose proof (mkdir_nodes_kept _ _ _ _ _ _ Hm) as Hkept;
    apply mkdir_quiet in Hm as [[Hcwd _] Henv Hro _ _];
    [|cbn [fst]; repeat split; auto].
  destruct (Pathlib.write_text _ _ w1) as [w2 [n|e]] eqn:Hw; cbn [fst].
  - pose proof (write_text_nodes _ _ _ _ _ Hw) as (k & Hr & Hk & Hdir & Hnodes).
    apply write_text_ok in Hw as (_ & Hkept2 & Henv2 & Hro2 & _).
    repeat split; [congruence|destruct Hkept2; congruence|congruence|].
    intros k' n' Hn'%Hkept. destruct (decide (k = k')) as [<-|Hne].
    + right. destruct n' as [|d]; [done|]. exists d, (joinpath (joinpath root "logs") filename).
      repeat split. by eapply resolve_kept.
    + left. by rewrite (node_at_insert_ne _ _ _ _ _ Hnodes Hne).
  - apply write_text_raise in Hw as [->| ->]; (repeat split; [done..|]);
      intros k n Hn%Hkept; left; by rewrite ?node_at_emit.
Qed.

(** X10. Saving the same plan again changes nothing: after a call that
    returned, a second call with the same steps and file name either
    returns the same string or is refused with [PermissionError] (the
    file it made is not writable), and leaves every node of the file
    system as the first call left it. *)
Theorem save_plan_to_file_again this_file steps filename w w1 s :
  Tools.save_plan_to_file this_file steps filename w = (w1, Ok s) →
  ∃ w2,
    (Tools.save_plan_to_file this_file steps filename w1 = (w2, Ok s) ∨
     Tools.save_plan_to_file this_file steps filename w1 = (w2, Raise PermissionError)) ∧
    nodes w2 = nodes w1.
Proof.
  intros Hsave. destruct (parents this_file 2) as [root|e] eqn:Hroot;
    [|by rewrite (save_plan_to_file_no_root _ _ _ _ _ Hroot) in Hsave].
  pose proof (save_plan_to_file_ok_logs _ _ _ _ _ _ _ Hroot Hsave) as Hlogs.
  pose proof (save_plan_to_file_accepted _ _ _ _ _ _ _ Hroot Hsave) as Hacc.
  apply save_plan_to_file_ok in Hsave as (path & fd & Hp & -> & Hc & _).
  rewrite (plan_path_root _ _ _ Hroot) in Hp. injection Hp as <-.
  rewrite (save_plan_to_file_eq _ _ _ _ _ Hroot), (mkdir_exists _ _ _ Hlogs).
  unfold Pathlib.file_content in Hc.
  destruct (OS.resolve w1 _) as [k|] eqn:Hr; [|done].
  destruct (OS.node_at w1 k) as [[|d]|] eqn:Hk; [done| |done]. injection Hc as ->.
  assert (k ≠ []) as Hne by (intros ->; done).
  unfold Pathlib.write_text, bind, OS.open_w.
  rewrite !lookup_emit, (lookup_accepted _ _ Hacc), Hr, !node_at_emit, Hk.
  apply accepted_spec in Hacc as [-> _].
  case_decide; [eexists; split; [by right|done]|].
  erewrite write_file; [|by apply node_at_set_node_eq].
  eexists. split; [by left|]. cbn. rewrite insert_insert_eq.
  apply insert_id. by destruct k.
Qed.

Lemma save_plan_to_file_again_witness :
  ∃ w2,
    (Tools.save_plan_to_file example_file ["Deploy"] "autogen_plan.txt"
       (Tools.save_plan_to_file example_file ["Deploy"] "autogen_plan.txt"
          example_world).1 = (w2, Ok "/srv/lab8/logs/autogen_plan.txt") ∨
     Tools.save_plan_to_file example_file ["Deploy"] "autogen_plan.txt"
       (Tools.save_plan_to_file example_file ["Deploy"] "autogen_plan.txt"
          example_world).1 = (w2, Raise PermissionError)) ∧
    nodes w2
    = nodes (Tools.save_plan_to_file example_file ["Deploy"] "autogen_plan.txt"
               example_world).1.
Proof.
  apply (save_plan_to_file_again example_file ["Deploy"] "autogen_plan.txt" example_world).
  vm_compute. reflexivity.
Defined.

(** ** A clear way to the logs directory *)






Lemma join_cons_cons (x y : string) (l : list string) :
  join "/" (x :: y :: l) = x +:+ "/" +:+ join "/" (y :: l).
Proof. reflexivity. Qed.















(** ** File names the system refuses *)

Lemma contains_split c sep s :
  c ≠ sep → existsb (contains c) (split sep s) = contains c s.
Proof.
  intros Hc. induction s as [|a s IH]; [done|].
  cbn [split contains]. case_decide as Ha.
  - subst a. cbn [existsb contains]. rewrite IH.
    by rewrite bool_decide_eq_false_2 by done.
  - destruct (split sep s) as [|f fs]; cbn [existsb contains] in *.
    + by rewrite <-IH, !orb_false_r.
    + by rewrite <-IH, orb_assoc.
Qed.

(** The components [parse] drops hold no null byte. *)
Lemma existsb_NUL_segments (l : list string) :
  existsb (contains NUL) (filter (λ x, keep_segment x = true) l)
  = existsb (contains NUL) l.
Proof.
  induction l as [|x l IH]; [done|]. rewrite filter_cons. case_decide as Hx.
  - cbn [existsb]. by rewrite IH.
  - cbn [existsb]. rewrite IH.
    assert (contains NUL x = false) as ->; [|done].
    unfold keep_segment in Hx. apply not_true_is_false, andb_false_iff in Hx.
    destruct Hx as [Hx|Hx]; apply negb_false_iff, bool_decide_eq_true in Hx;
      by subst x.
Qed.

Lemma contains_join c l :
  c ≠ slash → contains c (join "/" l) = existsb (contains c) l.
Proof.
  intros Hc. induction l as [|x l IH]; [done|]. destruct l as [|y l].
  - cbn [existsb]. by rewrite orb_false_r.
  - rewrite join_cons_cons, !contains_app, IH. cbn [existsb contains].
    rewrite bool_decide_eq_false_2 by (by intros ?; apply Hc). done.
Qed.

Lemma contains_NUL_str p :
  contains NUL (str p) = contains NUL (anchor p) || existsb (contains NUL) (segments p).
Proof.
  destruct p as [a segs]. unfold str. cbn [anchor segments].
  destruct a as [|c a].
  - destruct segs as [|x l]; [done|]. by rewrite app_empty_l, contains_join.
  - by rewrite contains_app, contains_join.
Qed.

(** A null byte in the right operand of [/] is in the string of the
    path, wherever it stands. *)
Lemma embedded_null_joinpath p key :
  contains NUL key = true → OS.embedded_null (joinpath p key) = true.
Proof.
  intros Hkey.
  assert (existsb (contains NUL) (segments (parse key)) = true) as Hq.
  { unfold parse. cbn [segments]. by rewrite existsb_NUL_segments, contains_split. }
  unfold OS.embedded_null. rewrite contains_NUL_str. apply orb_true_iff. right.
  unfold joinpath. destruct (anchor (parse key)); [|done].
  cbn [segments]. rewrite existsb_app, Hq. apply orb_true_r.
Qed.

(** X16. A file name that holds a null byte, wherever it stands, is
    refused when the file is opened: the logs directory is made first,
    then [write_text] raises [ValueError]; no file is opened or written
    and the world is as [mkdir] left it. *)
Theorem save_plan_to_file_null_byte this_file logs steps filename w w1 :
  Tools.logs_dir this_file = Ok logs →
  contains NUL filename = true →
  Pathlib.mkdir true true logs w = (w1, Ok ()) →
  Tools.save_plan_to_file this_file steps filename w = (w1, Raise ValueError).
Proof.
  unfold Tools.logs_dir.
  destruct (parents this_file 2) as [root|e] eqn:Hroot; [|done].
  intros [= <-] Hnul Hm.
  rewrite (save_plan_to_file_eq _ _ _ _ _ Hroot), Hm.
  unfold Pathlib.write_text, bind, OS.open_w.
  by rewrite (embedded_null_joinpath _ _ Hnul).
Qed.

Lemma save_plan_to_file_null_byte_witness :
  Tools.save_plan_to_file example_file ["Deploy"] ("runs/" +:+ null_name) example_world
  = ((Pathlib.mkdir true true (parse "/srv/lab8/logs") example_world).1,
     Raise ValueError).
Proof.
  apply (save_plan_to_file_null_byte example_file (parse "/srv/lab8/logs")).
  - reflexivity.
  - reflexivity.
  - vm_compute. reflexivity.
Defined.



(** ** [get_llm_config], continued *)

(** X13. The configuration depends on the environment through the base
    URL alone: two worlds give the same configuration exactly when
    OLLAMA_BASE_URL, with its default, reads the same in both; no other
    variable has any effect. *)
Theorem get_llm_config_base_url w1 w2 :
  Config.get_llm_config w1 = Config.get_llm_config w2 ↔
  Config.getenv w1 "OLLAMA_BASE_URL" "http://localhost:11434/v1"
  = Config.getenv w2 "OLLAMA_BASE_URL" "http://localhost:11434/v1".
Proof.
  unfold Config.get_llm_config. split.
  - intros Heq. apply (f_equal (λ m, m !! "config_list")) in Heq.
    rewrite !lookup_singleton_eq in Heq.
    assert (∀ x y : gmap string string, Some [x] = Some [y] → x = y) as Hinj
      by congruence.
    apply Hinj in Heq.
    apply (f_equal (λ m : gmap string string, m !! "base_url")) in Heq.
    by simplify_map_eq.
  - by intros ->.
Qed.

(** ** [create_planner_executor_agents] *)

(** X14. The user proxy has one function registered for execution,
    under the name "save_plan_tool". It takes the steps alone: whoever
    calls it cannot choose the file, and a call that returns has written
    the plan to autogen_plan.txt directly inside the logs directory. *)
Theorem save_plan_tool_target this_file w name f steps w0 w' s :
  (name, f) ∈ function_map (create_planner_executor_agents this_file w).1 →
  f steps w0 = (w', Ok s) →
  name = "save_plan_tool" ∧
  ∃ logs,
    Tools.logs_dir this_file = Ok logs ∧
    s = str (mkPath (anchor logs) (segments logs ++ ["autogen_plan.txt"])) ∧
    Pathlib.file_content w' (mkPath (anchor logs) (segments logs ++ ["autogen_plan.txt"]))
      = Some (Tools.plan_text steps) ∧
    is_relative_to (mkPath (anchor logs) (segments logs ++ ["autogen_plan.txt"])) logs
      = true.
Proof.
  cbn [create_planner_executor_agents fst function_map].
  intros [= -> ->]%list_elem_of_singleton Hsave. split; [done|].
  unfold save_plan_tool, Tools.default_filename in Hsave.
  apply save_plan_to_file_ok in Hsave as (path & fd & Hp & -> & Hc & _).
  unfold plan_path in Hp. destruct (Tools.logs_dir this_file) as [logs|e]; [|done].
  injection Hp as <-. exists logs.
  rewrite joinpath_segment in * by done. repeat split; try done.
  unfold is_relative_to. cbn [anchor segments].
  rewrite take_app_length_l. by rewrite !bool_decide_eq_true_2.
Qed.

Lemma save_plan_tool_target_witness :
  "save_plan_tool" = "save_plan_tool" ∧
  ∃ logs,
    Tools.logs_dir example_file = Ok logs ∧
    "/srv/lab8/logs/autogen_plan.txt"
      = str (mkPath (anchor logs) (segments logs ++ ["autogen_plan.txt"])) ∧
    Pathlib.file_content (save_plan_tool example_file ["Deploy"] example_world).1
      (mkPath (anchor logs) (segments logs ++ ["autogen_plan.txt"]))
      = Some (Tools.plan_text ["Deploy"]) ∧
    is_relative_to (mkPath (anchor logs) (segments logs ++ ["autogen_plan.txt"])) logs
      = true.
Proof.
  apply (save_plan_tool_target example_file example_world "save_plan_tool"
           (save_plan_tool example_file) ["Deploy"] example_world).
  - apply list_elem_of_here.
  - vm_compute. reflexivity.
Defined.
